(** * helusers: OIDC API-token authentication

    A shallow embedding of [helusers/_oidc_auth_impl.py], the
    [ApiTokenAuthentication] class, together with the properties its
    specification states about it.

    Conventions of the embedding:
    - Python [bytes] and [str] are both carried by [string], a [str] by its
      UTF-8 encoding; the conversion between them ([smart_str], which
      raises on bytes that do not decode) and [str.lower] stay explicit and
      are parameters, as are the other collaborators the class does not
      define itself (the JWT decoder and claim validator of its base class,
      the translation function, the HTTP client).
    - A Python call that may raise is a [result]; the calls made to
      collaborators and the debug log lines are recorded, in order, in a
      trace ([M A] is a trace together with a result).
    - A [dict] with string keys is a [gmap string _]. *)

From Stdlib Require Import ZArith Lia List String Ascii Bool.
From stdpp Require Import base option gmap strings list.

Set Warnings "-register-all".

Local Open Scope string_scope.
Local Open Scope Z_scope.

(** ** Exceptions and results *)

Inductive exn : Type :=
| AuthenticationFailed (detail : string)
| ValueError (msg : string)
| TypeError (msg : string)
| IndexError (msg : string)
| KeyError (key : string)
| RequestException (msg : string).

Inductive result (A : Type) : Type :=
| Return (a : A)
| Raise (e : exn).
Arguments Return {A} a.
Arguments Raise {A} e.

Definition result_map {A B : Type} (f : A -> B) (r : result A) : result B :=
  match r with
  | Return a => Return (f a)
  | Raise e => Raise e
  end.

Definition is_authentication_failed {A : Type} (r : result A) : bool :=
  match r with
  | Raise (AuthenticationFailed _) => true
  | _ => false
  end.

(** ** Text helpers *)

Module Text.

(** The double-quote character, and the one-character string holding it. *)
Definition dquote_char : ascii := "034"%char.
Definition dquote : string := String dquote_char EmptyString.

(** The bytes on which [bytes.split()] without argument splits:
    space, tab, line feed, vertical tab, form feed, carriage return. *)
Definition is_space (c : ascii) : bool :=
  match nat_of_ascii c with
  | 32%nat | 9%nat | 10%nat | 11%nat | 12%nat | 13%nat => true
  | _ => false
  end.

Definition cons_word (w : string) (ws : list string) : list string :=
  match w with
  | EmptyString => ws
  | _ => w :: ws
  end.

(** [split_go s] is the word that [s] starts with (empty when [s] starts
    with white space) and the words after it. *)
Fixpoint split_go (s : string) : string * list string :=
  match s with
  | EmptyString => (EmptyString, [])
  | String c s' =>
      let (w, ws) := split_go s' in
      if is_space c then (EmptyString, cons_word w ws)
      else (String c w, ws)
  end.

(** [bytes.split()]: the maximal runs of non-space bytes, in order. *)
Definition split (s : string) : list string :=
  let (w, ws) := split_go s in cons_word w ws.

Fixpoint no_space (s : string) : bool :=
  match s with
  | EmptyString => true
  | String c s' => negb (is_space c) && no_space s'
  end.

Fixpoint all_space (s : string) : bool :=
  match s with
  | EmptyString => true
  | String c s' => is_space c && all_space s'
  end.

Definition is_brace (c : ascii) : bool :=
  match nat_of_ascii c with
  | 123%nat | 125%nat => true
  | _ => false
  end.

Fixpoint no_brace (s : string) : bool :=
  match s with
  | EmptyString => true
  | String c s' => negb (is_brace c) && no_brace s'
  end.

Fixpoint kw_lookup (name : string) (kwargs : list (string * string))
  : option string :=
  match kwargs with
  | [] => None
  | (k, v) :: rest => if String.eqb k name then Some v else kw_lookup name rest
  end.

(** [str.format] with keyword arguments, for templates whose replacement
    fields are plain keyword names (no conversion flag, no format spec),
    which is what the templates of this module use. [field] is [Some name]
    while the scan is inside a replacement field, [name] being what was
    read of it so far. *)
Fixpoint format_go (kwargs : list (string * string)) (field : option string)
  (t : string) : result string :=
  match t with
  | EmptyString =>
      match field with
      | None => Return EmptyString
      | Some _ => Raise (ValueError "expected '}' before end of string")
      end
  | String c t' =>
      match field with
      | None =>
          if Ascii.eqb c "{" then
            match t' with
            | String "{" t'' =>
                result_map (String "{") (format_go kwargs None t'')
            | _ => format_go kwargs (Some EmptyString) t'
            end
          else if Ascii.eqb c "}" then
            match t' with
            | String "}" t'' =>
                result_map (String "}") (format_go kwargs None t'')
            | _ => Raise (ValueError "Single '}' encountered in format string")
            end
          else result_map (String c) (format_go kwargs None t')
      | Some name =>
          if Ascii.eqb c "}" then
            match name with
            | EmptyString =>
                Raise (IndexError "Replacement index 0 out of range")
            | _ =>
                match kw_lookup name kwargs with
                | Some v =>
                    result_map (String.append v) (format_go kwargs None t')
                | None => Raise (KeyError name)
                end
            end
          else format_go kwargs (Some (name +:+ String c EmptyString)) t'
      end
  end.

Definition format (t : string) (kwargs : list (string * string))
  : result string :=
  format_go kwargs None t.

(** [sub] occurs in [s]. *)
Definition occurs_in (sub s : string) : Prop :=
  exists pre post : string, s = pre +:+ sub +:+ post.

(** ASCII lower-casing, the restriction of [str.lower] to ASCII text. *)
Definition ascii_lower_char (c : ascii) : ascii :=
  let n := nat_of_ascii c in
  if (65 <=? n)%nat && (n <=? 90)%nat then ascii_of_nat (n + 32) else c.

Fixpoint ascii_lower (s : string) : string :=
  match s with
  | EmptyString => EmptyString
  | String c s' => String (ascii_lower_char c) (ascii_lower s')
  end.

(** [lo <= c <= hi] on the code of a byte. *)
Definition in_range (lo hi : nat) (c : ascii) : bool :=
  let n := nat_of_ascii c in (lo <=? n)%nat && (n <=? hi)%nat.

(** The ranges of the bytes that must follow a byte that starts a
    character in well-formed UTF-8; [None] for a byte that cannot start
    one (a continuation byte, [C0], [C1], [F5] and above). *)
Definition utf8_lead (c : ascii) : option (list (nat * nat)) :=
  let n := nat_of_ascii c in
  if (n <=? 127)%nat then Some []
  else if (n <? 194)%nat then None
  else if (n <=? 223)%nat then Some [(128, 191)]%nat
  else if (n =? 224)%nat then Some [(160, 191); (128, 191)]%nat
  else if (n <=? 236)%nat then Some [(128, 191); (128, 191)]%nat
  else if (n =? 237)%nat then Some [(128, 159); (128, 191)]%nat
  else if (n <=? 239)%nat then Some [(128, 191); (128, 191)]%nat
  else if (n =? 240)%nat then Some [(144, 191); (128, 191); (128, 191)]%nat
  else if (n <=? 243)%nat then Some [(128, 191); (128, 191); (128, 191)]%nat
  else if (n =? 244)%nat then Some [(128, 143); (128, 191); (128, 191)]%nat
  else None.

(** Well-formed UTF-8; [pending] holds the ranges of the bytes that the
    character being read still needs. *)
Fixpoint utf8_valid_go (pending : list (nat * nat)) (s : string) : bool :=
  match s with
  | EmptyString =>
      match pending with
      | [] => true
      | _ => false
      end
  | String c s' =>
      match pending with
      | (lo, hi) :: rest => in_range lo hi c && utf8_valid_go rest s'
      | [] =>
          match utf8_lead c with
          | Some needed => utf8_valid_go needed s'
          | None => false
          end
      end
  end.

Definition utf8_valid (s : string) : bool := utf8_valid_go [] s.

(** Strict decoding of bytes as UTF-8, as [smart_str] does it: the text,
    carried by its encoding, or the [DjangoUnicodeDecodeError], which is a
    [ValueError]. *)
Definition utf8_decode (b : string) : result string :=
  if utf8_valid b then Return b
  else Raise (ValueError "'utf-8' codec can't decode bytes").

End Text.

(** ** JSON values and token payloads *)

Inductive json : Type :=
| JNull
| JBool (b : bool)
| JInt (z : Z)
| JFloat (literal : string)
| JStr (s : string)
| JArr (items : list json)
| JObj (members : list (string * json)).

(** [isinstance(v, str)] for an optional value, [None] being Python's
    [None] as returned by [dict.get] on a missing key. *)
Definition isinstance_str (v : option json) : bool :=
  match v with
  | Some (JStr _) => true
  | _ => false
  end.

(** The fix-up that [authenticate] applies to the decoded payload:
<<
    if isinstance(payload.get("amr"), str):
        payload["amr"] = [payload["amr"]]
>> *)
Definition normalize_amr (payload : gmap string json) : gmap string json :=
  match payload !! "amr" with
  | Some (JStr s) => <["amr" := JArr [JStr s]]> payload
  | _ => payload
  end.

Definition amr_modified (payload : gmap string json) : bool :=
  isinstance_str (payload !! "amr").

(** ** Configuration values *)

(** A setting that is a single string or an ordered sequence of strings
    (a Python list or tuple). *)
Inductive str_or_seq : Type :=
| OneStr (s : string)
| StrList (items : list string)
| StrTuple (items : list string).

Definition isinstance_conf_str (v : str_or_seq) : bool :=
  match v with
  | OneStr _ => true
  | _ => false
  end.

(** [v[0]] on a sequence. *)
Definition seq_first (v : str_or_seq) : result string :=
  match v with
  | OneStr s =>
      match s with
      | EmptyString => Raise (IndexError "string index out of range")
      | String c _ => Return (String c EmptyString)
      end
  | StrList [] => Raise (IndexError "list index out of range")
  | StrList (x :: _) => Return x
  | StrTuple [] => Raise (IndexError "tuple index out of range")
  | StrTuple (x :: _) => Return x
  end.

(** The items of a sequence; a list and a tuple with the same items are
    the same to a consumer that only iterates or tests membership. *)
Definition seq_items (v : str_or_seq) : list string :=
  match v with
  | OneStr s => [s]
  | StrList l => l
  | StrTuple l => l
  end.

(** A set display with one element, [{v}]: the element must be hashable,
    which a list is not. A one-element set is carried as a one-element
    list. *)
Definition set_of_one (v : str_or_seq) : result (list str_or_seq) :=
  match v with
  | StrList _ => Raise (TypeError "unhashable type: 'list'")
  | _ => Return [v]
  end.

(** One entry of the claims options handed to the JWT library. *)
Record claim_option : Type := {
  essential : bool;
  values : str_or_seq
}.

(** ** The environment of the class *)

(** What Django and Django REST framework provide. *)
Class Framework : Type := {
  Request : Type;
  User : Type;
  (** [request.META.get('HTTP_AUTHORIZATION')], as bytes *)
  HTTP_AUTHORIZATION : Request -> option string;
  (** [django.utils.translation.gettext] *)
  gettext : string -> string;
  (** [django.utils.encoding.smart_str] on bytes: the text they encode, or
      the exception raised when they do not decode *)
  smart_str : string -> result string;
  (** [str.lower] *)
  str_lower : string -> string
}.

Section Model.
Context `{FW : Framework}.

(** [helusers.settings.api_token_auth_settings] and its overrides. *)
Record Settings : Type := {
  ISSUER : str_or_seq;
  AUDIENCE : str_or_seq;
  AUTH_SCHEME : option string;
  OIDC_CONFIG_EXPIRATION_TIME : Z;
  USER_RESOLVER : Request -> gmap string json -> result User;
  REQUIRE_API_SCOPE_FOR_AUTHENTICATION : bool;
  API_SCOPE_PREFIX : string
}.

Record ApiTokenAuthentication : Type := {
  settings : Settings
}.

(** Modelled from the spec: [helusers.authz.UserAuthorization] is defined
    in another module of the package; it is constructed from (user,
    claims, settings) and is read-only afterwards. *)
Record UserAuthorization : Type := {
  user : User;
  data : gmap string json;
  authz_settings : Settings
}.

(** ** Traces *)

Inductive log_line : Type :=
| LogAuthorizationHeader (auth : list string)
| LogInvalidTokenSignature
| LogAmrModified
| LogPayloadDecoded (payload : gmap string json).

Inductive event : Type :=
| Debug (line : log_line)
| DecodeJwt (jwt_value : string)
| ValidateClaims (payload : gmap string json)
| ResolveUser (request : Request) (payload : gmap string json)
| HttpGet (url : string).

Definition M (A : Type) : Type := (list event * result A)%type.

Definition ret {A : Type} (a : A) : M A := ([], Return a).

Definition raise {A : Type} (e : exn) : M A := ([], Raise e).

Definition lift {A : Type} (r : result A) : M A := ([], r).

Definition emit (ev : event) : M unit := ([ev], Return tt).

Definition bind {A B : Type} (m : M A) (k : A -> M B) : M B :=
  match m with
  | (t, Return a) => let (t', r) := k a in ((t ++ t')%list, r)
  | (t, Raise e) => (t, Raise e)
  end.

Definition trace {A : Type} (m : M A) : list event := fst m.
Definition outcome {A : Type} (m : M A) : result A := snd m.

End Model.

Declare Scope auth_scope.
Delimit Scope auth_scope with auth.
Notation "'do' x <- c ;; k" := (bind c (fun x => k))
  (at level 10, x name, c at level 99, k at level 200) : auth_scope.
Notation "'run' c ;; k" := (bind c (fun _ => k))
  (at level 10, c at level 99, k at level 200) : auth_scope.
Local Open Scope auth_scope.

(** What the base class [oidc_auth.authentication.JSONWebTokenAuthentication]
    and the sibling modules of the package provide. *)
Class Collaborators `{FW : Framework} : Type := {
  (** the module-level settings object, the default of [__init__] *)
  api_token_auth_settings : Settings;
  (** [super().claims_options] *)
  super_claims_options : ApiTokenAuthentication -> gmap string claim_option;
  (** [self.decode_jwt]: signature and structure of the token *)
  decode_jwt : ApiTokenAuthentication -> string -> result (gmap string json);
  (** [self.validate_claims] *)
  validate_claims : ApiTokenAuthentication -> gmap string json -> result unit;
  (** [self.www_authenticate_realm] *)
  www_authenticate_realm : ApiTokenAuthentication -> string;
  (** [UserAuthorization.has_api_scope_with_prefix] *)
  has_api_scope_with_prefix : UserAuthorization -> string -> bool;
  (** [helusers.user_utils.get_or_create_user(payload, oidc=...)] *)
  get_or_create_user : gmap string json -> bool -> result User
}.

Section Authentication.
Context `{CO : Collaborators}.

(** [__init__]: [self.settings = settings or api_token_auth_settings]. *)
Definition init (settings : option Settings) : ApiTokenAuthentication :=
  {| settings := default api_token_auth_settings settings |}.

(** The [claims_options] property. *)
Definition claims_options (self : ApiTokenAuthentication)
  : gmap string claim_option :=
  let _claims_options := super_claims_options self in
  let audiences := AUDIENCE (settings self) in
  let audiences :=
    match audiences with
    | OneStr s => StrList [s]
    | _ => audiences
    end in
  <["aud" := {| essential := true; values := audiences |}]> _claims_options.

(** [self.settings.AUTH_SCHEME or 'Bearer'] *)
Definition auth_scheme (self : ApiTokenAuthentication) : string :=
  match AUTH_SCHEME (settings self) with
  | None => "Bearer"
  | Some EmptyString => "Bearer"
  | Some s => s
  end.

Definition well_known_path : string := "/.well-known/openid-configuration".

(** The issuer that [get_oidc_config] resolves:
<<
    issuer = self.settings.ISSUER
    if not isinstance(issuer, str):
        issuer = issuer[0]
>> *)
Definition effective_issuer (self : ApiTokenAuthentication) : result string :=
  let issuer := ISSUER (settings self) in
  match issuer with
  | OneStr s => Return s
  | _ => seq_first issuer
  end.

(** The body of [get_oidc_config]; [requests_get_json url] is
    [requests.get(url).json()] as the network answers at the time of the
    call. *)
Definition get_oidc_config (requests_get_json : string -> result json)
  (self : ApiTokenAuthentication) : M json :=
  do issuer <- lift (effective_issuer self);;
  let url := issuer +:+ well_known_path in
  run emit (HttpGet url);;
  lift (requests_get_json url).

(** Modelled from the spec: [get_authorization_header] belongs to
    [rest_framework]; an absent header is read as the empty byte string
    (section 4.1 treats both alike). *)
Definition get_authorization_header (request : Request) : string :=
  default EmptyString (HTTP_AUTHORIZATION request).

Definition msg_no_credentials : string :=
  "Invalid Authorization header. No credentials provided".

Definition msg_spaces : string :=
  "Invalid Authorization header. "
    +:+ "Credentials string should not contain spaces.".

Definition get_jwt_value (self : ApiTokenAuthentication) (request : Request)
  : M (option string) :=
  let auth := Text.split (get_authorization_header request) in
  run emit (Debug (LogAuthorizationHeader auth));;
  do no_credential <-
    lift match auth with
         | [] => Return true
         | auth_0 :: _ =>
             result_map
               (fun scheme =>
                  negb (String.eqb (str_lower scheme)
                                   (str_lower (auth_scheme self))))
               (smart_str auth_0)
         end;;
  if no_credential then ret None
  else
    if (length auth =? 1)%nat then
      raise (AuthenticationFailed (gettext msg_no_credentials))
    else if (2 <? length auth)%nat then
      raise (AuthenticationFailed (gettext msg_spaces))
    else
      match nth_error auth 1 with
      | Some auth_1 => ret (Some auth_1)
      | None => raise (IndexError "list index out of range")
      end.

Definition msg_scope : string :=
  "Not authorized for API scope " +:+ Text.dquote +:+ "{api_scope}"
    +:+ Text.dquote.

Definition authenticate (self : ApiTokenAuthentication) (request : Request)
  : M (option (User * UserAuthorization)) :=
  do jwt_value <- get_jwt_value self request;;
  match jwt_value with
  | None => ret None
  | Some jwt_value =>
      do payload <-
        (run emit (DecodeJwt jwt_value);;
         match decode_jwt self jwt_value with
         | Return payload => ret payload
         | Raise (AuthenticationFailed detail) =>
             run emit (Debug LogInvalidTokenSignature);;
             raise (AuthenticationFailed detail)
         | Raise e => raise e
         end);;
      do payload <-
        (if isinstance_str (payload !! "amr")
         then run emit (Debug LogAmrModified);; ret (normalize_amr payload)
         else ret payload);;
      run emit (Debug (LogPayloadDecoded payload));;
      run emit (ValidateClaims payload);;
      run lift (validate_claims self payload);;
      let user_resolver := USER_RESOLVER (settings self) in
      do user <-
        (run emit (ResolveUser request payload);;
         match user_resolver request payload with
         | Return user => ret user
         | Raise (ValueError e) => raise (AuthenticationFailed e)
         | Raise e => raise e
         end);;
      let auth :=
        {| user := user; data := payload; authz_settings := settings self |} in
      run (if REQUIRE_API_SCOPE_FOR_AUTHENTICATION (settings self) then
             let api_scope := API_SCOPE_PREFIX (settings self) in
             if negb (has_api_scope_with_prefix auth api_scope) then
               do detail <- lift (Text.format (gettext msg_scope)
                                    [("api_scope", api_scope)]);;
               raise (AuthenticationFailed detail)
             else ret tt
           else ret tt);;
      ret (Some (user, auth))
  end.

(** What [authenticate] raises when the scope check fails. *)
Definition scope_denied (self : ApiTokenAuthentication)
  : result (option (User * UserAuthorization)) :=
  match Text.format (gettext msg_scope)
          [("api_scope", API_SCOPE_PREFIX (settings self))] with
  | Return detail => Raise (AuthenticationFailed detail)
  | Raise e => Raise e
  end.

(** The events of [authenticate] from the decoding of the token to the
    call of the validator. *)
Definition decoded_events (jwt_value : string) (decoded : gmap string json)
  : list event :=
  [DecodeJwt jwt_value]
    ++ (if amr_modified decoded then [Debug LogAmrModified] else [])
    ++ [Debug (LogPayloadDecoded (normalize_amr decoded));
        ValidateClaims (normalize_amr decoded)].

Definition is_decode_call (ev : event) : bool :=
  match ev with
  | DecodeJwt _ => true
  | _ => false
  end.

Definition is_validate_call (ev : event) : bool :=
  match ev with
  | ValidateClaims _ => true
  | _ => false
  end.

Definition is_resolve_call (ev : event) : bool :=
  match ev with
  | ResolveUser _ _ => true
  | _ => false
  end.

(** The number of events of one kind in a trace. *)
Definition calls (kind : event -> bool) (t : list event) : nat :=
  length (List.filter kind t).

Definition authenticate_header (self : ApiTokenAuthentication)
  (request : Request) : result string :=
  Text.format ("{auth_scheme} realm=" +:+ Text.dquote +:+ "{realm}"
                 +:+ Text.dquote)
    [("auth_scheme", auth_scheme self);
     ("realm", www_authenticate_realm self)].

(** [get_audiences]: the set display [{self.settings.AUDIENCE}]. *)
Definition get_audiences (self : ApiTokenAuthentication) (api_token : string)
  : result (list str_or_seq) :=
  set_of_one (AUDIENCE (settings self)).

Definition resolve_user (request : Request) (payload : gmap string json)
  : result User :=
  get_or_create_user payload true.

End Authentication.

(** ** The provider-configuration cache and the claim validator *)

Record cache_entry : Type := {
  cached_value : json;
  expires_at : Z
}.

Section Cache.
Context `{CO : Collaborators}.

Definition is_http_get (ev : event) : bool :=
  match ev with
  | HttpGet _ => true
  | _ => false
  end.

(** The number of outbound fetches recorded in a trace. *)
Definition fetches (t : list event) : nat :=
  length (List.filter is_http_get t).

(** An entry for [key] that has not expired at [now]. *)
Definition live (store : gmap string cache_entry) (key : string) (now : Z)
  : bool :=
  match store !! key with
  | Some entry => now <? expires_at entry
  | None => false
  end.

(** Modelled from the spec: the [cache] decorator belongs to
    [oidc_auth.util]. Sections 4.2 and 9 describe a cache-aside store from
    a key to a value and its expiry timestamp, read with a pluggable
    clock: a call within the entry's time to live answers from the store
    without calling [fn]; otherwise [fn] is called once and its result,
    when it returns, replaces the entry and expires [ttl] later. A
    failure of [fn] propagates and stores nothing. *)
Definition cache (ttl : Z) (key : string) (fn : M json) (now : Z)
  (store : gmap string cache_entry) : M json * gmap string cache_entry :=
  let refresh :=
    match fn with
    | (t, Return v) =>
        ((t, Return v),
         <[key := {| cached_value := v; expires_at := now + ttl |}]> store)
    | (t, Raise e) => ((t, Raise e), store)
    end in
  match store !! key with
  | Some entry =>
      if now <? expires_at entry then (ret (cached_value entry), store)
      else refresh
  | None => refresh
  end.

(** Modelled from the spec: the key of the cached provider configuration
    is the effective issuer (section 4.2). *)
Definition oidc_config_key (self : ApiTokenAuthentication) : string :=
  match effective_issuer self with
  | Return issuer => issuer
  | Raise _ => EmptyString
  end.

(** The [oidc_config] property, that is [get_oidc_config] as decorated by
    [@cache(ttl=api_token_auth_settings.OIDC_CONFIG_EXPIRATION_TIME)];
    [network now] is the network as it answers at time [now]. *)
Definition oidc_config (network : Z -> string -> result json)
  (self : ApiTokenAuthentication) (now : Z)
  (store : gmap string cache_entry) : M json * gmap string cache_entry :=
  cache (OIDC_CONFIG_EXPIRATION_TIME api_token_auth_settings)
    (oidc_config_key self) (get_oidc_config (network now) self) now store.

(** Modelled from the spec: the claims options are consumed by the claim
    validation of the JWT library. Section 4.3: a claim whose option is
    essential must be present in the payload; its absence is a failure of
    the validation. *)
Definition validate_essential_claims (options : gmap string claim_option)
  (payload : gmap string json) : result unit :=
  if bool_decide
       (map_Forall
          (fun k opt => essential opt = true -> is_Some (payload !! k))
          options)
  then Return tt
  else Raise (AuthenticationFailed "missing_claim").

End Cache.

(** ** A concrete deployment

    The configuration of the specification's scenarios: issuer
    [https://idp.example/], audience [["api"]], a required API scope with
    prefix [myapi]. Requests are reduced to their [Authorization] header and
    users to their subject identifier. *)

Module Scenario.

#[export] Instance framework : Framework := {|
  Request := option string;
  User := string;
  HTTP_AUTHORIZATION := fun request => request;
  gettext := fun msgid => msgid;
  smart_str := Text.utf8_decode;
  str_lower := Text.ascii_lower
|}.

Definition claims (scope : string) : gmap string json :=
  <["iss" := JStr "https://idp.example/"]>
    (<["aud" := JStr "api"]>
       (<["sub" := JStr "alice"]>
          (<["amr" := JStr "pwd"]>
             (<["scope" := JStr scope]> ∅)))).

(** The resolver of the deployment: the user is the token's subject. *)
Definition user_resolver (request : option string)
  (payload : gmap string json) : result string :=
  match payload !! "sub" with
  | Some (JStr sub) => Return sub
  | _ => Raise (ValueError "Token payload has no sub claim")
  end.

Definition scenario_settings : Settings := {|
  ISSUER := OneStr "https://idp.example/";
  AUDIENCE := StrList ["api"];
  AUTH_SCHEME := Some "Bearer";
  OIDC_CONFIG_EXPIRATION_TIME := 600;
  USER_RESOLVER := user_resolver;
  REQUIRE_API_SCOPE_FOR_AUTHENTICATION := true;
  API_SCOPE_PREFIX := "myapi"
|}.

(** Three tokens the decoder of the deployment accepts; every other token
    fails the signature check. *)
Definition decode (jwt_value : string) : result (gmap string json) :=
  if String.eqb jwt_value "abc.def.ghi" then
    Return (claims "myapi.read openid")
  else if String.eqb jwt_value "no.scope.tok" then
    Return (claims "openid profile")
  else if String.eqb jwt_value "no.sub.tok" then
    Return (delete "sub" (claims "myapi.read openid"))
  else if String.eqb jwt_value "no.aud.tok" then
    Return (delete "aud" (claims "myapi.read openid"))
  else
    Raise (AuthenticationFailed
           ("Invalid Authorization header. "
              +:+ "JWT Signature verification failed.")).

(** Modelled from the spec: [has_api_scope_with_prefix] is a method of
    [helusers.authz.UserAuthorization], defined in another module.
    Section 4.4: true iff the scope set, read from the space-delimited
    scope claim, holds a value that starts with the prefix. *)
Definition scope_with_prefix (auth : UserAuthorization) (prefix : string)
  : bool :=
  match data auth !! "scope" with
  | Some (JStr scope) => existsb (String.prefix prefix) (Text.split scope)
  | _ => false
  end.

Definition base_options : gmap string claim_option :=
  {["iss" := {| essential := true;
                values := StrList ["https://idp.example/"] |}]}.

(** The collaborators with a validator that accepts every payload; it
    gives the claims options that the deployed validator checks. *)
Definition lenient : Collaborators := {|
  api_token_auth_settings := scenario_settings;
  super_claims_options := fun _ => base_options;
  decode_jwt := fun _ => decode;
  validate_claims := fun _ _ => Return tt;
  www_authenticate_realm := fun _ => "api";
  has_api_scope_with_prefix := scope_with_prefix;
  get_or_create_user := fun payload _ => user_resolver None payload
|}.

#[export] Instance collaborators : Collaborators := {|
  api_token_auth_settings := scenario_settings;
  super_claims_options := fun _ => base_options;
  decode_jwt := fun _ => decode;
  validate_claims := fun self =>
    validate_essential_claims (@claims_options framework lenient self);
  www_authenticate_realm := fun _ => "api";
  has_api_scope_with_prefix := scope_with_prefix;
  get_or_create_user := fun payload _ => user_resolver None payload
|}.

Definition authenticator : ApiTokenAuthentication := init None.

(** A deployment with two issuers, configured as a list, and two
    audiences, configured as a tuple. *)
Definition multi_authenticator : ApiTokenAuthentication :=
  init (Some {| ISSUER := StrList ["https://idp.example";
                                   "https://other.example"];
                AUDIENCE := StrTuple ["api"; "other"];
                AUTH_SCHEME := None;
                OIDC_CONFIG_EXPIRATION_TIME := 600;
                USER_RESOLVER := user_resolver;
                REQUIRE_API_SCOPE_FOR_AUTHENTICATION := false;
                API_SCOPE_PREFIX := "myapi" |}).

Definition authorization (payload : gmap string json) : UserAuthorization :=
  {| user := "alice"; data := payload; authz_settings := scenario_settings |}.

(** [authenticate] of the deployed authenticator on a request with the
    given [Authorization] header. *)
Definition authenticate_request (header : option string)
  : M (option (string * UserAuthorization)) :=
  authenticate authenticator header.

Definition extract (header : option string) : M (option string) :=
  get_jwt_value authenticator header.

(** The header [b'\xff abc']: its first token is the byte [FF], which
    occurs in no UTF-8 text. *)
Definition undecodable_header : string := String "255"%char " abc".

(** A resolver that reports a missing subject as a [KeyError]. *)
Definition strict_resolver (request : option string)
  (payload : gmap string json) : result string :=
  match payload !! "sub" with
  | Some (JStr sub) => Return sub
  | _ => Raise (KeyError "sub")
  end.

(** A deployment with the scheme [Token], a single audience given as a
    string, the strict resolver, and an issuer setting left as an empty
    tuple. *)
Definition strict_authenticator : ApiTokenAuthentication :=
  init (Some {| ISSUER := StrTuple [];
                AUDIENCE := OneStr "api";
                AUTH_SCHEME := Some "Token";
                OIDC_CONFIG_EXPIRATION_TIME := 600;
                USER_RESOLVER := strict_resolver;
                REQUIRE_API_SCOPE_FOR_AUTHENTICATION := true;
                API_SCOPE_PREFIX := "myapi" |}).

Definition network (now : Z) (url : string) : result json :=
  Return (JObj [("issuer", JStr "https://idp.example/");
                ("fetched_at", JInt now);
                ("url", JStr url)]).

End Scenario.

(** * Properties *)

(** ** Splitting and formatting *)

Lemma append_nil_l (t : string) : EmptyString +:+ t = t.
Proof. reflexivity. Qed.

Lemma append_cons (c : ascii) (s t : string) :
  String c s +:+ t = String c (s +:+ t).
Proof. reflexivity. Qed.

Lemma append_nil_r (s : string) : s +:+ EmptyString = s.
Proof.
  induction s as [|c s IH]; [reflexivity|].
  rewrite append_cons, IH. reflexivity.
Qed.

Lemma split_go_word_no_space (s : string) :
  Text.no_space (fst (Text.split_go s)) = true.
Proof.
  induction s as [|c s IH]; simpl; [reflexivity|].
  destruct (Text.split_go s) as [w ws]; simpl in *.
  destruct (Text.is_space c) eqn:Hc; simpl; [reflexivity|].
  rewrite Hc. simpl. exact IH.
Qed.

Lemma split_go_words (s : string) :
  Forall (fun w => w <> EmptyString /\ Text.no_space w = true)
    (snd (Text.split_go s)).
Proof.
  induction s as [|c s IH]; simpl; [constructor|].
  pose proof (split_go_word_no_space s) as Hw.
  destruct (Text.split_go s) as [w ws]; simpl in *.
  destruct (Text.is_space c); simpl; [|exact IH].
  destruct w; simpl; [exact IH|].
  constructor; [split; [discriminate|exact Hw]|exact IH].
Qed.

(** The tokens of a header are non-empty and hold no white space. *)
Lemma split_words (s : string) :
  Forall (fun w => w <> EmptyString /\ Text.no_space w = true) (Text.split s).
Proof.
  unfold Text.split.
  pose proof (split_go_word_no_space s) as Hw.
  pose proof (split_go_words s) as Hws.
  destruct (Text.split_go s) as [w ws]; simpl in *.
  destruct w; simpl; [exact Hws|].
  constructor; [split; [discriminate|exact Hw]|exact Hws].
Qed.

Lemma split_empty : Text.split EmptyString = [].
Proof. reflexivity. Qed.

(** A header of white space only has no token. *)
Lemma split_all_space (s : string) :
  Text.all_space s = true -> Text.split s = [].
Proof.
  unfold Text.split.
  assert (H : Text.all_space s = true -> Text.split_go s = (EmptyString, [])).
  { induction s as [|c s IH]; simpl; [reflexivity|].
    intros [Hc Hs]%andb_prop. rewrite (IH Hs), Hc. reflexivity. }
  intros Hs. rewrite (H Hs). reflexivity.
Qed.

Lemma split_go_no_space_app (w rest : string) :
  Text.no_space w = true ->
  Text.split_go (w +:+ rest)
  = (w +:+ fst (Text.split_go rest), snd (Text.split_go rest)).
Proof.
  induction w as [|c w IH]; simpl.
  - intros _. rewrite !append_nil_l. destruct (Text.split_go rest); reflexivity.
  - intros [Hc Hw]%andb_prop. rewrite !append_cons. simpl. rewrite (IH Hw).
    apply negb_true_iff in Hc. rewrite Hc. reflexivity.
Qed.

(** A scheme and a credential separated by one space split into exactly
    these two tokens. *)
Lemma split_two (scheme cred : string) :
  scheme <> EmptyString -> cred <> EmptyString ->
  Text.no_space scheme = true -> Text.no_space cred = true ->
  Text.split (scheme +:+ " " +:+ cred) = [scheme; cred].
Proof.
  intros Hs Hc Hns Hnc. unfold Text.split.
  rewrite (split_go_no_space_app scheme _ Hns).
  rewrite append_cons, append_nil_l. simpl.
  assert (Hcred : Text.split_go cred = (cred, [])).
  { pose proof (split_go_no_space_app cred EmptyString Hnc) as H.
    simpl in H. now rewrite !append_nil_r in H. }
  rewrite Hcred. simpl. rewrite append_nil_r.
  destruct scheme; [contradiction|]. destruct cred; [contradiction|].
  reflexivity.
Qed.

Lemma is_brace_false (c : ascii) :
  Text.is_brace c = false ->
  Ascii.eqb c "{" = false /\ Ascii.eqb c "}" = false.
Proof.
  intros H. split.
  - destruct (Ascii.eqb_spec c "{") as [->|]; [discriminate H|reflexivity].
  - destruct (Ascii.eqb_spec c "}") as [->|]; [discriminate H|reflexivity].
Qed.

Lemma result_map_append (c : ascii) (pre : string) (r : result string) :
  result_map (String c) (result_map (String.append pre) r)
  = result_map (String.append (String c pre)) r.
Proof. destruct r; reflexivity. Qed.

(** Text without braces is copied by [format]. *)
Lemma format_go_plain (kwargs : list (string * string)) (pre t : string) :
  Text.no_brace pre = true ->
  Text.format_go kwargs None (pre +:+ t)
  = result_map (String.append pre) (Text.format_go kwargs None t).
Proof.
  induction pre as [|c pre IH]; simpl.
  - intros _. rewrite append_nil_l.
    destruct (Text.format_go kwargs None t); reflexivity.
  - intros [Hc Hpre]%andb_prop. apply negb_true_iff in Hc.
    destruct (is_brace_false c Hc) as [Ho Hcl].
    rewrite Ho, Hcl, (IH Hpre). apply result_map_append.
Qed.

Lemma format_go_no_brace (kwargs : list (string * string)) (t : string) :
  Text.no_brace t = true -> Text.format_go kwargs None t = Return t.
Proof.
  induction t as [|c t IH]; simpl; [reflexivity|].
  intros [Hc Ht]%andb_prop. apply negb_true_iff in Hc.
  destruct (is_brace_false c Hc) as [Ho Hcl].
  rewrite Ho, Hcl, (IH Ht). reflexivity.
Qed.

(** A template with the single field [{api_scope}] has the value of the
    field put in its place, verbatim. *)
Lemma format_api_scope (pre post api_scope : string) :
  Text.no_brace pre = true -> Text.no_brace post = true ->
  Text.format (pre +:+ "{api_scope}" +:+ post) [("api_scope", api_scope)]
  = Return (pre +:+ api_scope +:+ post).
Proof.
  intros Hpre Hpost. unfold Text.format.
  rewrite (format_go_plain _ pre _ Hpre).
  rewrite !append_cons, append_nil_l. simpl.
  rewrite (format_go_no_brace _ post Hpost). reflexivity.
Qed.

Example format_msg_scope :
  Text.format msg_scope [("api_scope", "myapi")]
  = Return ("Not authorized for API scope " +:+ Text.dquote +:+ "myapi"
              +:+ Text.dquote).
Proof. reflexivity. Qed.

(** ** The [amr] normalisation *)

Lemma normalize_amr_not_str (payload : gmap string json) :
  isinstance_str (payload !! "amr") = false -> normalize_amr payload = payload.
Proof.
  unfold normalize_amr. destruct (payload !! "amr") as [[]|]; simpl;
    intros H; try reflexivity; discriminate H.
Qed.

Lemma normalize_amr_str (payload : gmap string json) (s : string) :
  payload !! "amr" = Some (JStr s) ->
  normalize_amr payload = <["amr" := JArr [JStr s]]> payload.
Proof. unfold normalize_amr. intros ->. reflexivity. Qed.

Lemma normalize_amr_canonical (payload : gmap string json) :
  isinstance_str (normalize_amr payload !! "amr") = false.
Proof.
  destruct (isinstance_str (payload !! "amr")) eqn:H.
  - destruct (payload !! "amr") as [[]|] eqn:Hamr; try discriminate H.
    rewrite (normalize_amr_str _ _ Hamr), lookup_insert_eq. reflexivity.
  - rewrite (normalize_amr_not_str _ H). exact H.
Qed.

(** C5: the normalisation replaces a string [amr] by the one-element
    sequence holding it, leaves a payload whose [amr] is already a sequence
    unchanged, and is idempotent. *)
Theorem normalize_amr_idempotent (payload : gmap string json) :
  (forall s : string,
      payload !! "amr" = Some (JStr s) ->
      normalize_amr payload = <["amr" := JArr [JStr s]]> payload
      /\ normalize_amr payload !! "amr" = Some (JArr [JStr s]))
  /\ (forall items : list json,
         payload !! "amr" = Some (JArr items) ->
         normalize_amr payload = payload)
  /\ normalize_amr (normalize_amr payload) = normalize_amr payload.
Proof.
  split; [|split].
  - intros s Hs. rewrite (normalize_amr_str _ _ Hs).
    split; [reflexivity|apply lookup_insert_eq].
  - intros items Hitems. apply normalize_amr_not_str.
    rewrite Hitems. reflexivity.
  - apply normalize_amr_not_str, normalize_amr_canonical.
Qed.

Lemma normalize_amr_idempotent_witness :
  let payload := Scenario.claims "openid" in
  payload !! "amr" = Some (JStr "pwd")
  /\ normalize_amr payload !! "amr" = Some (JArr [JStr "pwd"])
  /\ normalize_amr (normalize_amr payload) !! "amr" = Some (JArr [JStr "pwd"])
  /\ normalize_amr (normalize_amr payload) = normalize_amr payload.
Proof.
  intros payload.
  destruct (normalize_amr_idempotent payload) as [Hstr [_ Hidem]].
  assert (Hamr : payload !! "amr" = Some (JStr "pwd")) by reflexivity.
  destruct (Hstr "pwd" Hamr) as [_ Hlookup].
  split; [exact Hamr|]. split; [exact Hlookup|].
  split; [rewrite Hidem; exact Hlookup|exact Hidem].
Defined.

(** C10: the normalisation changes no entry but [amr], keeps the set of
    claim names, and returns the payload as decoded when [amr] is absent or
    is not a string. *)
Theorem normalize_amr_frame (payload : gmap string json) :
  (forall k : string, k <> "amr" -> normalize_amr payload !! k = payload !! k)
  /\ dom (normalize_amr payload) = dom payload
  /\ (payload !! "amr" = None -> normalize_amr payload = payload)
  /\ (forall v : json,
         payload !! "amr" = Some v -> (forall s : string, v <> JStr s) ->
         normalize_amr payload = payload).
Proof.
  repeat split.
  - intros k Hk. unfold normalize_amr.
    destruct (payload !! "amr") as [[]|]; try reflexivity.
    apply lookup_insert_ne. congruence.
  - unfold normalize_amr.
    destruct (payload !! "amr") as [[]|] eqn:Hamr; try reflexivity.
    rewrite dom_insert_L.
    assert (Hin : "amr" ∈ dom payload) by (apply elem_of_dom; eauto).
    apply set_eq. intros k. rewrite elem_of_union, elem_of_singleton.
    split; [intros [->|Hk]; assumption|intros Hk; right; exact Hk].
  - intros Hnone. apply normalize_amr_not_str. rewrite Hnone. reflexivity.
  - intros v Hv Hnot. apply normalize_amr_not_str. rewrite Hv.
    destruct v; try reflexivity. exfalso. exact (Hnot s eq_refl).
Qed.

Lemma normalize_amr_frame_witness :
  let payload := Scenario.claims "openid" in
  normalize_amr payload !! "sub" = payload !! "sub"
  /\ normalize_amr (delete "amr" payload) = delete "amr" payload
  /\ normalize_amr (<["amr" := JArr [JStr "pwd"]]> payload)
     = <["amr" := JArr [JStr "pwd"]]> payload.
Proof.
  intros payload.
  split; [|split].
  - apply (normalize_amr_frame payload). discriminate.
  - apply (normalize_amr_frame (delete "amr" payload)). reflexivity.
  - apply (normalize_amr_frame (<["amr" := JArr [JStr "pwd"]]> payload))
      with (v := JArr [JStr "pwd"]); [reflexivity|discriminate].
Defined.

(** ** Credential extraction *)

Section Extraction.
Context `{CO : Collaborators}.

Lemma auth_scheme_default (self : ApiTokenAuthentication) :
  AUTH_SCHEME (settings self) = None -> auth_scheme self = "Bearer".
Proof. unfold auth_scheme. intros ->. reflexivity. Qed.

Lemma auth_scheme_configured (self : ApiTokenAuthentication) (s : string) :
  AUTH_SCHEME (settings self) = Some s -> s <> EmptyString ->
  auth_scheme self = s.
Proof.
  unfold auth_scheme. intros -> Hs. destruct s; [contradiction|reflexivity].
Qed.

(** Extraction calls no collaborator: its trace is the debug line that
    shows the header. *)
Lemma get_jwt_value_trace (self : ApiTokenAuthentication) (request : Request) :
  trace (get_jwt_value self request)
  = [Debug (LogAuthorizationHeader
              (Text.split (get_authorization_header request)))].
Proof.
  unfold get_jwt_value, trace, bind, emit, ret, raise, lift.
  destruct (Text.split (get_authorization_header request))
    as [|auth_0 [|auth_1 [|auth_2 rest]]]; simpl; try reflexivity;
    destruct (smart_str auth_0) as [scheme|e]; simpl; try reflexivity;
    destruct (String.eqb _ _); reflexivity.
Qed.

Lemma get_jwt_value_no_token (self : ApiTokenAuthentication)
  (request : Request) :
  Text.split (get_authorization_header request) = [] ->
  outcome (get_jwt_value self request) = Return None.
Proof.
  intros Hsplit. unfold get_jwt_value. rewrite Hsplit. reflexivity.
Qed.

Lemma get_jwt_value_other_scheme (self : ApiTokenAuthentication)
  (request : Request) (auth_0 scheme : string) (rest : list string) :
  Text.split (get_authorization_header request) = auth_0 :: rest ->
  smart_str auth_0 = Return scheme ->
  str_lower scheme <> str_lower (auth_scheme self) ->
  outcome (get_jwt_value self request) = Return None.
Proof.
  intros Hsplit Hdecoded Hne. unfold get_jwt_value. rewrite Hsplit.
  apply String.eqb_neq in Hne. simpl. rewrite Hdecoded. simpl.
  rewrite Hne. reflexivity.
Qed.

(** When the first token does not decode, the exception of [smart_str]
    leaves [get_jwt_value] as it is. *)
Lemma get_jwt_value_undecodable (self : ApiTokenAuthentication)
  (request : Request) (auth_0 : string) (rest : list string) (e : exn) :
  Text.split (get_authorization_header request) = auth_0 :: rest ->
  smart_str auth_0 = Raise e ->
  outcome (get_jwt_value self request) = Raise e.
Proof.
  intros Hsplit Hraise. unfold get_jwt_value. rewrite Hsplit.
  simpl. rewrite Hraise. reflexivity.
Qed.

Lemma authenticate_no_credential (self : ApiTokenAuthentication)
  (request : Request) :
  outcome (get_jwt_value self request) = Return None ->
  authenticate self request
  = ([Debug (LogAuthorizationHeader
               (Text.split (get_authorization_header request)))],
     Return None).
Proof.
  intros Hout. pose proof (get_jwt_value_trace self request) as Htr.
  unfold authenticate.
  destruct (get_jwt_value self request) as [t r].
  simpl in Hout, Htr. subst t r. reflexivity.
Qed.

(** X16: a request whose [Authorization] header is absent, empty, or
    starts with a token that decodes to a text other than the configured
    scheme up to case carries no credential: extraction returns [None], and
    so does [authenticate], without raising and without calling a
    collaborator. *)
Theorem get_jwt_value_no_credential (self : ApiTokenAuthentication)
  (request : Request) :
  HTTP_AUTHORIZATION request = None
  \/ HTTP_AUTHORIZATION request = Some EmptyString
  \/ (exists (header auth_0 scheme : string) (rest : list string),
         HTTP_AUTHORIZATION request = Some header
         /\ Text.split header = auth_0 :: rest
         /\ smart_str auth_0 = Return scheme
         /\ str_lower scheme <> str_lower (auth_scheme self)) ->
  outcome (get_jwt_value self request) = Return None
  /\ outcome (authenticate self request) = Return None
  /\ is_authentication_failed (outcome (authenticate self request)) = false
  /\ trace (authenticate self request)
     = [Debug (LogAuthorizationHeader
                 (Text.split (get_authorization_header request)))].
Proof.
  intros Hcases.
  assert (Hnone : outcome (get_jwt_value self request) = Return None).
  { destruct Hcases
      as [Habsent|[Hempty
                  |(header & auth_0 & scheme & rest & Hh & Hs & Hdec & Hne)]].
    - apply get_jwt_value_no_token.
      unfold get_authorization_header. rewrite Habsent. reflexivity.
    - apply get_jwt_value_no_token.
      unfold get_authorization_header. rewrite Hempty. reflexivity.
    - apply (get_jwt_value_other_scheme self request auth_0 scheme rest);
        [|exact Hdec|exact Hne].
      unfold get_authorization_header. rewrite Hh. exact Hs. }
  rewrite (authenticate_no_credential self request Hnone).
  repeat split; [exact Hnone].
Qed.

(** C4: when the first token of the header is the configured scheme up
    to case, a header of one token fails with the message that no
    credentials were provided, a header of more than two tokens fails with
    the message that the credentials should not contain spaces, and a
    header of two tokens yields the second token. *)
Theorem get_jwt_value_matching_scheme (self : ApiTokenAuthentication)
  (request : Request) (auth_0 scheme : string) (rest : list string) :
  Text.split (get_authorization_header request) = auth_0 :: rest ->
  smart_str auth_0 = Return scheme ->
  str_lower scheme = str_lower (auth_scheme self) ->
  outcome (get_jwt_value self request)
  = match rest with
    | [] =>
        Raise (AuthenticationFailed
                 (gettext
                    "Invalid Authorization header. No credentials provided"))
    | [auth_1] => Return (Some auth_1)
    | _ :: _ :: _ =>
        Raise (AuthenticationFailed
                 (gettext
                    ("Invalid Authorization header. "
                       +:+ "Credentials string should not contain spaces.")))
    end.
Proof.
  intros Hsplit Hdecoded Heq. unfold get_jwt_value. rewrite Hsplit.
  apply String.eqb_eq in Heq. simpl. rewrite Hdecoded. simpl. rewrite Heq.
  destruct rest as [|auth_1 [|auth_2 rest]]; reflexivity.
Qed.

(** A header made of the scheme, in any case, one space and a credential
    without white space yields that credential. *)
Corollary get_jwt_value_scheme_and_credential (self : ApiTokenAuthentication)
  (request : Request) (scheme decoded credential : string) :
  HTTP_AUTHORIZATION request = Some (scheme +:+ " " +:+ credential) ->
  scheme <> EmptyString -> credential <> EmptyString ->
  Text.no_space scheme = true -> Text.no_space credential = true ->
  smart_str scheme = Return decoded ->
  str_lower decoded = str_lower (auth_scheme self) ->
  outcome (get_jwt_value self request) = Return (Some credential).
Proof.
  intros Hheader Hs Hc Hns Hnc Hdecoded Hmatch.
  unfold get_jwt_value, get_authorization_header. rewrite Hheader. simpl.
  rewrite (split_two scheme credential Hs Hc Hns Hnc).
  apply String.eqb_eq in Hmatch. simpl. rewrite Hdecoded. simpl.
  rewrite Hmatch. reflexivity.
Qed.

End Extraction.

Lemma get_jwt_value_no_credential_witness :
  outcome (Scenario.extract (Some "Basic dXNlcjpwYXNz")) = Return None
  /\ outcome (Scenario.extract None) = Return None
  /\ outcome (Scenario.authenticate_request (Some EmptyString)) = Return None.
Proof.
  split; [|split].
  - apply (get_jwt_value_no_credential (CO := Scenario.collaborators)
             Scenario.authenticator (Some "Basic dXNlcjpwYXNz")).
    right. right.
    exists "Basic dXNlcjpwYXNz", "Basic", "Basic", ["dXNlcjpwYXNz"].
    split; [reflexivity|]. split; [reflexivity|]. split; [reflexivity|].
    vm_compute. discriminate.
  - apply (get_jwt_value_no_credential (CO := Scenario.collaborators)
             Scenario.authenticator None).
    left. reflexivity.
  - apply (get_jwt_value_no_credential (CO := Scenario.collaborators)
             Scenario.authenticator (Some EmptyString)).
    right. left. reflexivity.
Defined.

Lemma get_jwt_value_matching_scheme_witness :
  outcome (Scenario.extract (Some "bearer abc.def.ghi"))
  = Return (Some "abc.def.ghi")
  /\ is_authentication_failed (outcome (Scenario.extract (Some "Bearer")))
     = true
  /\ is_authentication_failed
       (outcome (Scenario.extract (Some "BEARER abc def"))) = true.
Proof.
  split; [|split].
  - apply (get_jwt_value_matching_scheme (FW := Scenario.framework)
             Scenario.authenticator
             (Some "bearer abc.def.ghi") "bearer" "bearer" ["abc.def.ghi"]);
      reflexivity.
  - unfold Scenario.extract.
    rewrite (get_jwt_value_matching_scheme (FW := Scenario.framework)
               Scenario.authenticator (Some "Bearer") "Bearer" "Bearer" []);
      reflexivity.
  - unfold Scenario.extract.
    rewrite (get_jwt_value_matching_scheme (FW := Scenario.framework)
               Scenario.authenticator
               (Some "BEARER abc def") "BEARER" "BEARER" ["abc"; "def"]);
      reflexivity.
Defined.

(** ** The authentication pipeline *)

Section Pipeline.
Context `{CO : Collaborators}.

Lemma authenticate_extraction_raises (self : ApiTokenAuthentication)
  (request : Request) (e : exn) :
  outcome (get_jwt_value self request) = Raise e ->
  authenticate self request = (trace (get_jwt_value self request), Raise e).
Proof.
  intros Hout. unfold authenticate.
  destruct (get_jwt_value self request) as [t r].
  simpl in Hout. subst r. reflexivity.
Qed.

Lemma authenticate_decode_raises (self : ApiTokenAuthentication)
  (request : Request) (jwt_value : string) (e : exn) :
  outcome (get_jwt_value self request) = Return (Some jwt_value) ->
  decode_jwt self jwt_value = Raise e ->
  outcome (authenticate self request) = Raise e
  /\ forall ev, In ev (trace (authenticate self request)) ->
       In ev (trace (get_jwt_value self request))
       \/ ev = DecodeJwt jwt_value \/ ev = Debug LogInvalidTokenSignature.
Proof.
  intros Hout Hdec. unfold authenticate.
  destruct (get_jwt_value self request) as [t r].
  simpl in Hout. subst r. simpl. rewrite Hdec.
  destruct e; simpl; (split; [reflexivity|]);
    intros ev [Hin|Hin]%in_app_iff; auto; simpl in Hin; intuition auto.
Qed.

(** The course of [authenticate] once a token has been extracted and
    decoded. *)
Lemma authenticate_decoded (self : ApiTokenAuthentication)
  (request : Request) (jwt_value : string) (decoded : gmap string json) :
  outcome (get_jwt_value self request) = Return (Some jwt_value) ->
  decode_jwt self jwt_value = Return decoded ->
  let payload := normalize_amr decoded in
  let t := (trace (get_jwt_value self request)
              ++ decoded_events jwt_value decoded)%list in
  authenticate self request
  = match validate_claims self payload with
    | Raise e => (t, Raise e)
    | Return _ =>
        ((t ++ [ResolveUser request payload])%list,
         match USER_RESOLVER (settings self) request payload with
         | Raise (ValueError msg) => Raise (AuthenticationFailed msg)
         | Raise e => Raise e
         | Return user =>
             let auth := {| user := user; data := payload;
                            authz_settings := settings self |} in
             if REQUIRE_API_SCOPE_FOR_AUTHENTICATION (settings self)
                && negb (has_api_scope_with_prefix auth
                           (API_SCOPE_PREFIX (settings self)))
             then scope_denied self
             else Return (Some (user, auth))
         end)
    end.
Proof.
  intros Hout Hdec payload t. subst payload t.
  unfold authenticate, decoded_events, amr_modified, scope_denied.
  destruct (get_jwt_value self request) as [t0 r].
  simpl in Hout. subst r. simpl. rewrite Hdec. simpl.
  destruct (isinstance_str (decoded !! "amr")) eqn:Hamr; simpl;
    [|rewrite (normalize_amr_not_str _ Hamr)];
    (destruct (validate_claims self _) as [[]|e]; simpl;
     [|rewrite <- ?app_assoc; reflexivity]);
    (destruct (USER_RESOLVER (settings self) request _) as [u|[]]; simpl;
     try (rewrite <- ?app_assoc; reflexivity));
    (destruct (REQUIRE_API_SCOPE_FOR_AUTHENTICATION (settings self)); simpl;
     [|rewrite <- ?app_assoc; reflexivity]);
    (destruct (has_api_scope_with_prefix _ _); simpl;
     [rewrite <- ?app_assoc; reflexivity|]);
    (destruct (Text.format _ _); simpl; rewrite <- ?app_assoc; reflexivity).
Qed.

Lemma resolver_not_called_before (self : ApiTokenAuthentication)
  (request req : Request) (jwt_value : string)
  (decoded p : gmap string json) :
  ~ In (ResolveUser req p)
      (trace (get_jwt_value self request)
         ++ decoded_events jwt_value decoded)%list.
Proof.
  rewrite get_jwt_value_trace. unfold decoded_events.
  destruct (amr_modified decoded); simpl; intuition discriminate.
Qed.

(** C2: on a request that reaches the scope check with the requirement
    enabled, [authenticate] returns the pair of the user and the
    authorization when the authorization has a scope with the configured
    prefix, and otherwise fails with [AuthenticationFailed]; the message is
    the translated template with the prefix put verbatim in the place of
    its field. *)
Theorem authenticate_scope_check (self : ApiTokenAuthentication)
  (request : Request) (jwt_value : string) (decoded : gmap string json)
  (resolved : User) :
  outcome (get_jwt_value self request) = Return (Some jwt_value) ->
  decode_jwt self jwt_value = Return decoded ->
  validate_claims self (normalize_amr decoded) = Return tt ->
  USER_RESOLVER (settings self) request (normalize_amr decoded)
  = Return resolved ->
  REQUIRE_API_SCOPE_FOR_AUTHENTICATION (settings self) = true ->
  let auth := {| user := resolved; data := normalize_amr decoded;
                 authz_settings := settings self |} in
  let api_scope := API_SCOPE_PREFIX (settings self) in
  (has_api_scope_with_prefix auth api_scope = true ->
   outcome (authenticate self request) = Return (Some (resolved, auth)))
  /\ (has_api_scope_with_prefix auth api_scope = false ->
      outcome (authenticate self request) = scope_denied self
      /\ forall pre post : string,
           gettext msg_scope = pre +:+ "{api_scope}" +:+ post ->
           Text.no_brace pre = true -> Text.no_brace post = true ->
           outcome (authenticate self request)
           = Raise (AuthenticationFailed (pre +:+ api_scope +:+ post))
           /\ Text.occurs_in api_scope (pre +:+ api_scope +:+ post)).
Proof.
  intros Hout Hdec Hval Hres Hreq auth api_scope.
  pose proof (authenticate_decoded self request jwt_value decoded Hout Hdec)
    as Hauth.
  cbv zeta in Hauth. rewrite Hval, Hres, Hreq in Hauth.
  fold auth api_scope in Hauth. rewrite Hauth. unfold outcome. simpl.
  split; intros Hscope; rewrite Hscope; simpl; [reflexivity|].
  split; [reflexivity|].
  intros pre post Htemplate Hpre Hpost.
  unfold scope_denied. rewrite Htemplate.
  fold api_scope. rewrite (format_api_scope pre post api_scope Hpre Hpost).
  split; [reflexivity|]. exists pre, post. reflexivity.
Qed.

(** C8: the user resolver is called only on a payload that the claim
    validation has accepted, right after it, and a [ValueError] of the
    resolver becomes an [AuthenticationFailed] with the same message. *)
Theorem user_resolver_after_validation (self : ApiTokenAuthentication)
  (request : Request) :
  (forall (req : Request) (p : gmap string json),
      In (ResolveUser req p) (trace (authenticate self request)) ->
      exists (jwt_value : string) (decoded : gmap string json),
        outcome (get_jwt_value self request) = Return (Some jwt_value)
        /\ decode_jwt self jwt_value = Return decoded
        /\ req = request
        /\ p = normalize_amr decoded
        /\ validate_claims self p = Return tt
        /\ exists before : list event,
             ~ In (ResolveUser req p) before
             /\ trace (authenticate self request)
                = (before ++ [ValidateClaims p; ResolveUser req p])%list)
  /\ (forall (jwt_value : string) (decoded : gmap string json) (msg : string),
        outcome (get_jwt_value self request) = Return (Some jwt_value) ->
        decode_jwt self jwt_value = Return decoded ->
        validate_claims self (normalize_amr decoded) = Return tt ->
        USER_RESOLVER (settings self) request (normalize_amr decoded)
        = Raise (ValueError msg) ->
        outcome (authenticate self request)
        = Raise (AuthenticationFailed msg)).
Proof.
  split.
  - intros req p Hin.
    destruct (outcome (get_jwt_value self request))
      as [[jwt_value|]|e] eqn:Hout.
    + destruct (decode_jwt self jwt_value) as [decoded|e] eqn:Hdec.
      * exists jwt_value, decoded. split; [reflexivity|]. split; [exact Hdec|].
        pose proof (authenticate_decoded self request jwt_value decoded
                      Hout Hdec) as Hauth.
        cbv zeta in Hauth. rewrite Hauth in Hin |- *.
        destruct (validate_claims self (normalize_amr decoded))
          as [[]|e] eqn:Hval;
          unfold trace in Hin |- *; simpl in Hin |- *.
        -- apply in_app_iff in Hin as [Hin|[Hin|[]]].
           ++ exfalso. exact (resolver_not_called_before _ _ _ _ _ _ Hin).
           ++ injection Hin as <- <-.
              split; [reflexivity|]. split; [reflexivity|].
              split; [exact Hval|].
              exists (fst (get_jwt_value self request)
                        ++ [DecodeJwt jwt_value]
                        ++ (if amr_modified decoded
                            then [Debug LogAmrModified] else [])
                        ++ [Debug (LogPayloadDecoded
                                     (normalize_amr decoded))])%list.
              split.
              ** pose proof (get_jwt_value_trace self request) as Htr.
                 unfold trace in Htr. rewrite Htr.
                 destruct (amr_modified decoded); simpl; intuition discriminate.
              ** unfold decoded_events.
                 destruct (amr_modified decoded); simpl;
                   rewrite <- !app_assoc; reflexivity.
        -- exfalso. exact (resolver_not_called_before _ _ _ _ _ _ Hin).
      * exfalso.
        destruct (authenticate_decode_raises self request jwt_value e Hout Hdec)
          as [_ Hevents].
        destruct (Hevents _ Hin) as [Hgjv|[Hd|Hd]]; try discriminate.
        rewrite get_jwt_value_trace in Hgjv. simpl in Hgjv.
        intuition discriminate.
    + exfalso. rewrite (authenticate_no_credential self request Hout) in Hin.
      simpl in Hin. intuition discriminate.
    + exfalso.
      rewrite (authenticate_extraction_raises self request e Hout) in Hin.
      unfold trace at 1 in Hin. simpl in Hin.
      rewrite get_jwt_value_trace in Hin. simpl in Hin. intuition discriminate.
  - intros jwt_value decoded msg Hout Hdec Hval Hres.
    pose proof (authenticate_decoded self request jwt_value decoded Hout Hdec)
      as Hauth.
    cbv zeta in Hauth. rewrite Hval, Hres in Hauth. rewrite Hauth. reflexivity.
Qed.

End Pipeline.

(** The decoder accepts ASCII and multi-byte characters and rejects the
    byte [FF], an overlong form, a surrogate, a code point above [10FFFF]
    and a truncated character. *)
Example utf8_valid_examples :
  Text.utf8_valid "Bearer" = true
  /\ Text.utf8_valid (String "195"%char (String "169"%char EmptyString))
     = true
  /\ Text.utf8_valid (String "255"%char EmptyString) = false
  /\ Text.utf8_valid (String "192"%char (String "128"%char EmptyString))
     = false
  /\ Text.utf8_valid
       (String "237"%char (String "160"%char (String "128"%char EmptyString)))
     = false
  /\ Text.utf8_valid
       (String "244"%char
          (String "144"%char
             (String "128"%char (String "128"%char EmptyString))))
     = false
  /\ Text.utf8_valid (String "226"%char (String "130"%char EmptyString))
     = false.
Proof. repeat split; reflexivity. Qed.

(** C3: the claim fails on the header [b'\xff abc']. Its first token is
    not the configured scheme, yet extraction does not return [None]:
    [smart_str] raises on the token, which is not UTF-8, and the exception
    leaves [get_jwt_value] and [authenticate]. *)
Theorem get_jwt_value_undecodable_scheme :
  let header := Scenario.undecodable_header in
  let first := String "255"%char EmptyString in
  Text.split header = [first; "abc"]
  /\ Text.ascii_lower first <> Text.ascii_lower "Bearer"
  /\ auth_scheme Scenario.authenticator = "Bearer"
  /\ outcome (Scenario.extract (Some header))
     = Raise (ValueError "'utf-8' codec can't decode bytes")
  /\ outcome (Scenario.authenticate_request (Some header))
     = Raise (ValueError "'utf-8' codec can't decode bytes")
  /\ outcome (Scenario.extract (Some header)) <> Return None.
Proof.
  intros header first.
  assert (Hsplit : Text.split header = [first; "abc"]) by reflexivity.
  assert (Hraise : outcome (Scenario.extract (Some header))
                   = Raise (ValueError "'utf-8' codec can't decode bytes")).
  { apply (get_jwt_value_undecodable (FW := Scenario.framework)
             Scenario.authenticator (Some header) first ["abc"]);
      reflexivity. }
  split; [exact Hsplit|]. split; [vm_compute; discriminate|].
  split; [reflexivity|]. split; [exact Hraise|].
  split; [|rewrite Hraise; discriminate].
  unfold Scenario.authenticate_request.
  rewrite (authenticate_extraction_raises (CO := Scenario.collaborators)
             Scenario.authenticator (Some header) _ Hraise).
  reflexivity.
Qed.

Lemma authenticate_scope_check_witness :
  outcome (Scenario.authenticate_request (Some "bearer abc.def.ghi"))
  = Return (Some ("alice",
                  Scenario.authorization
                    (normalize_amr (Scenario.claims "myapi.read openid"))))
  /\ outcome (Scenario.authenticate_request (Some "Bearer no.scope.tok"))
     = Raise (AuthenticationFailed
                ("Not authorized for API scope " +:+ Text.dquote +:+ "myapi"
                   +:+ Text.dquote)).
Proof.
  split.
  - apply (authenticate_scope_check (CO := Scenario.collaborators)
             Scenario.authenticator (Some "bearer abc.def.ghi")
             "abc.def.ghi" (Scenario.claims "myapi.read openid") "alice");
      vm_compute; reflexivity.
  - apply (authenticate_scope_check (CO := Scenario.collaborators)
             Scenario.authenticator (Some "Bearer no.scope.tok")
             "no.scope.tok" (Scenario.claims "openid profile") "alice");
      vm_compute; reflexivity.
Defined.

Lemma user_resolver_after_validation_witness :
  outcome (Scenario.authenticate_request (Some "Bearer no.sub.tok"))
  = Raise (AuthenticationFailed "Token payload has no sub claim")
  /\ validate_claims (Collaborators := Scenario.collaborators)
       Scenario.authenticator
       (normalize_amr (delete "sub" (Scenario.claims "myapi.read openid")))
     = Return tt.
Proof.
  destruct (user_resolver_after_validation (CO := Scenario.collaborators)
              Scenario.authenticator (Some "Bearer no.sub.tok"))
    as [Honly Herr].
  split.
  - apply (Herr "no.sub.tok"
             (delete "sub" (Scenario.claims "myapi.read openid")));
      vm_compute; reflexivity.
  - destruct (Honly (Some "Bearer no.sub.tok")
                (normalize_amr
                   (delete "sub" (Scenario.claims "myapi.read openid"))))
      as (jwt_value & decoded & _ & _ & _ & _ & Hval & _).
    + vm_compute. auto 10.
    + exact Hval.
Defined.

(** ** Audience configuration *)

Section Audience.
Context `{CO : Collaborators}.

Lemma validate_essential_claims_missing
  (options : gmap string claim_option) (payload : gmap string json)
  (k : string) (opt : claim_option) :
  options !! k = Some opt -> essential opt = true -> payload !! k = None ->
  validate_essential_claims options payload
  = Raise (AuthenticationFailed "missing_claim").
Proof.
  intros Hopt Hess Hmiss. unfold validate_essential_claims.
  rewrite bool_decide_eq_false_2; [reflexivity|].
  intros Hall. specialize (Hall k opt Hopt Hess).
  rewrite Hmiss in Hall. destruct Hall as [v Hv]. discriminate Hv.
Qed.

(** C1: the claims options mark [aud] as essential, with the configured
    audiences as its values, in list form when the setting is a single
    string; the other options are those of the base class; a payload
    with no [aud] claim fails the check of the essential claims. *)
Theorem claims_options_aud_essential (self : ApiTokenAuthentication) :
  claims_options self !! "aud"
  = Some {| essential := true;
            values := match AUDIENCE (settings self) with
                      | OneStr s => StrList [s]
                      | audiences => audiences
                      end |}
  /\ (forall opt : claim_option,
         claims_options self !! "aud" = Some opt ->
         essential opt = true
         /\ isinstance_conf_str (values opt) = false
         /\ seq_items (values opt) = seq_items (AUDIENCE (settings self)))
  /\ (forall k : string,
         k <> "aud" ->
         claims_options self !! k = super_claims_options self !! k)
  /\ (forall payload : gmap string json,
         payload !! "aud" = None ->
         validate_essential_claims (claims_options self) payload
         = Raise (AuthenticationFailed "missing_claim")).
Proof.
  assert (Haud : claims_options self !! "aud"
                 = Some {| essential := true;
                           values := match AUDIENCE (settings self) with
                                     | OneStr s => StrList [s]
                                     | audiences => audiences
                                     end |}).
  { unfold claims_options. rewrite lookup_insert_eq.
    destruct (AUDIENCE (settings self)); reflexivity. }
  split; [exact Haud|]. split; [|split].
  - intros opt Hopt. rewrite Haud in Hopt. injection Hopt as <-. simpl.
    split; [reflexivity|].
    destruct (AUDIENCE (settings self)); split; reflexivity.
  - intros k Hk. unfold claims_options. apply lookup_insert_ne. congruence.
  - intros payload Hmiss.
    exact (validate_essential_claims_missing _ _ _ _ Haud eq_refl Hmiss).
Qed.

(** What [get_audiences] returns for each form of the setting: the set
    display holds the raw setting, and is rejected when the setting is a
    list. *)
Lemma get_audiences_raw (self : ApiTokenAuthentication) (api_token : string) :
  get_audiences self api_token
  = match AUDIENCE (settings self) with
    | StrList _ => Raise (TypeError "unhashable type: 'list'")
    | audience => Return [audience]
    end.
Proof.
  unfold get_audiences, set_of_one.
  destruct (AUDIENCE (settings self)); reflexivity.
Qed.

End Audience.

Lemma claims_options_aud_essential_witness :
  let payload := delete "aud" (Scenario.claims "myapi.read openid") in
  payload !! "aud" = None
  /\ validate_essential_claims
       (claims_options (CO := Scenario.collaborators) Scenario.authenticator)
       payload
     = Raise (AuthenticationFailed "missing_claim").
Proof.
  intros payload.
  assert (Hmiss : payload !! "aud" = None) by reflexivity.
  split; [exact Hmiss|].
  apply (claims_options_aud_essential (CO := Scenario.collaborators)
           Scenario.authenticator).
  exact Hmiss.
Defined.

(** C9: with the audience configured as the list [["api"]], the claims
    options hold that list, while [get_audiences] builds a set display around
    the raw setting and raises [TypeError]; with the same audiences as a tuple
    it returns a set whose one member is the tuple itself. *)
Theorem get_audiences_not_normalized :
  AUDIENCE (settings Scenario.authenticator) = StrList ["api"]
  /\ values <$> (claims_options (CO := Scenario.collaborators)
                   Scenario.authenticator !! "aud")
     = Some (StrList ["api"])
  /\ get_audiences Scenario.authenticator "abc.def.ghi"
     = Raise (TypeError "unhashable type: 'list'")
  /\ AUDIENCE (settings Scenario.multi_authenticator)
     = StrTuple ["api"; "other"]
  /\ get_audiences Scenario.multi_authenticator "abc.def.ghi"
     = Return [StrTuple ["api"; "other"]].
Proof.
  split; [reflexivity|]. split; [reflexivity|].
  split; [apply get_audiences_raw|].
  split; [reflexivity|apply get_audiences_raw].
Qed.

(** ** Provider configuration *)

Section ProviderConfig.
Context `{CO : Collaborators}.

Lemma effective_issuer_cases (self : ApiTokenAuthentication) :
  effective_issuer self
  = match ISSUER (settings self) with
    | OneStr s => Return s
    | StrList (first :: _) | StrTuple (first :: _) => Return first
    | StrList [] => Raise (IndexError "list index out of range")
    | StrTuple [] => Raise (IndexError "tuple index out of range")
    end.
Proof.
  unfold effective_issuer.
  destruct (ISSUER (settings self)) as [s|[|first rest]|[|first rest]];
    reflexivity.
Qed.

Lemma get_oidc_config_issuer (requests_get_json : string -> result json)
  (self : ApiTokenAuthentication) (issuer : string) :
  effective_issuer self = Return issuer ->
  get_oidc_config requests_get_json self
  = ([HttpGet (issuer +:+ well_known_path)],
     requests_get_json (issuer +:+ well_known_path)).
Proof.
  intros Hissuer. unfold get_oidc_config. rewrite Hissuer. simpl.
  destruct (requests_get_json _); reflexivity.
Qed.

(** Without an issuer nothing is fetched. *)
Lemma get_oidc_config_no_issuer (requests_get_json : string -> result json)
  (self : ApiTokenAuthentication) (e : exn) :
  effective_issuer self = Raise e ->
  get_oidc_config requests_get_json self = ([], Raise e).
Proof.
  intros Hissuer. unfold get_oidc_config. rewrite Hissuer. reflexivity.
Qed.

(** C6: the configuration is fetched from the issuer setting itself when
    it is a string and from its first entry when it is a sequence, by one
    GET of the issuer followed by [/.well-known/openid-configuration], and
    what is returned is the parsed body of the response. *)
Theorem get_oidc_config_first_issuer
  (requests_get_json : string -> result json)
  (self : ApiTokenAuthentication) :
  (forall s : string,
      ISSUER (settings self) = OneStr s ->
      get_oidc_config requests_get_json self
      = ([HttpGet (s +:+ "/.well-known/openid-configuration")],
         requests_get_json (s +:+ "/.well-known/openid-configuration")))
  /\ (forall (first : string) (rest : list string),
         ISSUER (settings self) = StrList (first :: rest)
         \/ ISSUER (settings self) = StrTuple (first :: rest) ->
         get_oidc_config requests_get_json self
         = ([HttpGet (first +:+ "/.well-known/openid-configuration")],
            requests_get_json
              (first +:+ "/.well-known/openid-configuration"))).
Proof.
  split.
  - intros s Hs. apply get_oidc_config_issuer.
    rewrite effective_issuer_cases, Hs. reflexivity.
  - intros first rest [Hs|Hs]; apply get_oidc_config_issuer;
      rewrite effective_issuer_cases, Hs; reflexivity.
Qed.

End ProviderConfig.

Lemma get_oidc_config_first_issuer_witness :
  get_oidc_config (Scenario.network 0) Scenario.authenticator
  = ([HttpGet "https://idp.example//.well-known/openid-configuration"],
     Scenario.network 0
       "https://idp.example//.well-known/openid-configuration")
  /\ trace (get_oidc_config (Scenario.network 0) Scenario.multi_authenticator)
     = [HttpGet "https://idp.example/.well-known/openid-configuration"].
Proof.
  split.
  - destruct (get_oidc_config_first_issuer (Scenario.network 0)
                Scenario.authenticator) as [Hstr _].
    exact (Hstr "https://idp.example/" eq_refl).
  - destruct (get_oidc_config_first_issuer (Scenario.network 0)
                Scenario.multi_authenticator) as [_ Hseq].
    rewrite (Hseq "https://idp.example" ["https://other.example"]);
      [reflexivity|left; reflexivity].
Defined.

(** ** The cache of the provider configuration *)

Section Caching.
Context `{CO : Collaborators}.

Lemma oidc_config_hit (network : Z -> string -> result json)
  (self : ApiTokenAuthentication) (now : Z)
  (store : gmap string cache_entry) (entry : cache_entry) :
  store !! oidc_config_key self = Some entry -> now < expires_at entry ->
  oidc_config network self now store
  = (([], Return (cached_value entry)), store).
Proof.
  intros Hentry Hlive. unfold oidc_config, cache. rewrite Hentry.
  apply Z.ltb_lt in Hlive. rewrite Hlive. reflexivity.
Qed.

Lemma oidc_config_miss (network : Z -> string -> result json)
  (self : ApiTokenAuthentication) (now : Z)
  (store : gmap string cache_entry) (issuer : string) :
  effective_issuer self = Return issuer ->
  live store issuer now = false ->
  let url := issuer +:+ well_known_path in
  oidc_config network self now store
  = (([HttpGet url], network now url),
     match network now url with
     | Return v =>
         <[issuer := {| cached_value := v;
                        expires_at :=
                          now + OIDC_CONFIG_EXPIRATION_TIME
                                  api_token_auth_settings |}]> store
     | Raise _ => store
     end).
Proof.
  intros Hissuer Hdead url. unfold oidc_config, cache, oidc_config_key.
  rewrite Hissuer, (get_oidc_config_issuer _ _ _ Hissuer). fold url.
  unfold live in Hdead.
  destruct (store !! issuer) as [entry|]; [rewrite Hdead|];
    destruct (network now url); reflexivity.
Qed.

Lemma live_iff (store : gmap string cache_entry) (key : string) (now : Z) :
  live store key now = true
  <-> exists entry, store !! key = Some entry /\ now < expires_at entry.
Proof.
  unfold live. destruct (store !! key) as [entry|].
  - rewrite Z.ltb_lt. split; [eauto|].
    intros (entry' & [= <-] & Hlt). exact Hlt.
  - split; [discriminate|]. intros (entry & Hentry & _). discriminate.
Qed.

(** C7: a request for the provider configuration of an issuer that has
    returned made at most one fetch, and every request within the time to
    live of the cached entry returns the same value without a fetch. When
    the request at [t1] found no live entry, it made exactly one fetch and
    wrote an entry that is live exactly until [t1 + ttl]: requests before
    that time return the fetched value without a fetch, and the first
    request at or after it makes exactly one fetch, whose result replaces
    the entry and is what later requests within its own time to live
    return. *)
Theorem oidc_config_cached_for_ttl (network : Z -> string -> result json)
  (self : ApiTokenAuthentication) (issuer : string)
  (store store1 : gmap string cache_entry) (t1 : Z)
  (events1 : list event) (config1 : json) :
  effective_issuer self = Return issuer ->
  oidc_config network self t1 store = ((events1, Return config1), store1) ->
  let ttl := OIDC_CONFIG_EXPIRATION_TIME api_token_auth_settings in
  let url := issuer +:+ well_known_path in
  (fetches events1 <= 1)%nat
  /\ (live store issuer t1 = false ->
      fetches events1 = 1%nat
      /\ events1 = [HttpGet url]
      /\ network t1 url = Return config1
      /\ store1
         = <[issuer := {| cached_value := config1;
                          expires_at := t1 + ttl |}]> store
      /\ forall t2 : Z, live store1 issuer t2 = true <-> t2 < t1 + ttl)
  /\ (forall t2 : Z,
         live store1 issuer t2 = true ->
         oidc_config network self t2 store1
         = (([], Return config1), store1))
  /\ (forall t3 : Z,
         live store1 issuer t3 = false ->
         fst (oidc_config network self t3 store1)
         = ([HttpGet url], network t3 url)
         /\ fetches (trace (fst (oidc_config network self t3 store1))) = 1%nat
         /\ forall config3 : json,
              network t3 url = Return config3 ->
              snd (oidc_config network self t3 store1) !! issuer
              = Some {| cached_value := config3; expires_at := t3 + ttl |})
  /\ (live store issuer t1 = false ->
      forall t3 : Z,
        t1 + ttl <= t3 ->
        fst (oidc_config network self t3 store1)
        = ([HttpGet url], network t3 url)
        /\ forall config3 : json,
             network t3 url = Return config3 ->
             let store3 := snd (oidc_config network self t3 store1) in
             store3
             = <[issuer := {| cached_value := config3;
                              expires_at := t3 + ttl |}]> store1
             /\ forall t4 : Z,
                  t4 < t3 + ttl ->
                  oidc_config network self t4 store3
                  = (([], Return config3), store3)).
Proof.
  intros Hissuer Hcall ttl url.
  assert (Hkey : oidc_config_key self = issuer).
  { unfold oidc_config_key. rewrite Hissuer. reflexivity. }
  assert (Hwritten : forall (s : gmap string cache_entry) (v : json) (t t' : Z),
             live (<[issuer := {| cached_value := v;
                                  expires_at := t + ttl |}]> s) issuer t'
             = true <-> t' < t + ttl).
  { intros s v t t'. rewrite live_iff, lookup_insert_eq. split.
    - intros (entry & [= <-] & Hlt). exact Hlt.
    - intros Hlt. eexists. split; [reflexivity|exact Hlt]. }
  assert (Hread : forall (s : gmap string cache_entry) (v : json) (t t' : Z),
             t' < t + ttl ->
             oidc_config network self t'
               (<[issuer := {| cached_value := v;
                               expires_at := t + ttl |}]> s)
             = (([], Return v),
                <[issuer := {| cached_value := v;
                               expires_at := t + ttl |}]> s)).
  { intros s v t t' Hlt.
    apply (oidc_config_hit network self t' _
             {| cached_value := v; expires_at := t + ttl |});
      [rewrite Hkey; apply lookup_insert_eq|exact Hlt]. }
  assert (Hrefetch : forall t3 : Z,
             live store1 issuer t3 = false ->
             oidc_config network self t3 store1
             = (([HttpGet url], network t3 url),
                match network t3 url with
                | Return v =>
                    <[issuer := {| cached_value := v;
                                   expires_at := t3 + ttl |}]> store1
                | Raise _ => store1
                end)).
  { intros t3 Hdead.
    exact (oidc_config_miss network self t3 store1 issuer Hissuer Hdead). }
  assert (Hentry1 : exists entry,
             store1 !! issuer = Some entry
             /\ cached_value entry = config1
             /\ (fetches events1 <= 1)%nat
             /\ (live store issuer t1 = false ->
                 events1 = [HttpGet url]
                 /\ network t1 url = Return config1
                 /\ store1
                    = <[issuer := {| cached_value := config1;
                                     expires_at := t1 + ttl |}]> store)).
  { destruct (live store issuer t1) eqn:Hlive.
    - apply live_iff in Hlive as (entry & Hentry & Hlt).
      rewrite <- Hkey in Hentry.
      rewrite (oidc_config_hit network self t1 store entry Hentry Hlt) in Hcall.
      injection Hcall as <- <- <-. rewrite Hkey in Hentry.
      exists entry. split; [exact Hentry|]. split; [reflexivity|].
      split; [unfold fetches; simpl; lia|discriminate].
    - pose proof (oidc_config_miss network self t1 store issuer Hissuer Hlive)
        as Hmiss.
      cbv zeta in Hmiss. fold url ttl in Hmiss. rewrite Hmiss in Hcall.
      injection Hcall as <- Hnet <-. rewrite Hnet.
      exists {| cached_value := config1; expires_at := t1 + ttl |}.
      split; [apply lookup_insert_eq|]. split; [reflexivity|].
      split; [unfold fetches; simpl; lia|]. intros _.
      split; [reflexivity|]. split; reflexivity. }
  destruct Hentry1 as (entry & Hentry & Hvalue & Hle & Hfresh).
  split; [exact Hle|]. split; [|split; [|split]].
  - intros Hdead. destruct (Hfresh Hdead) as (Hevents & Hnet & Hstore).
    split; [rewrite Hevents; reflexivity|]. split; [exact Hevents|].
    split; [exact Hnet|]. split; [exact Hstore|].
    intros t2. rewrite Hstore. apply Hwritten.
  - intros t2 Hlive. apply live_iff in Hlive as (entry' & Hentry' & Hlt).
    rewrite Hentry in Hentry'. injection Hentry' as <-.
    rewrite <- Hkey in Hentry.
    rewrite (oidc_config_hit network self t2 store1 entry Hentry Hlt).
    rewrite Hvalue. reflexivity.
  - intros t3 Hdead. rewrite (Hrefetch t3 Hdead). simpl.
    split; [reflexivity|]. split; [reflexivity|].
    intros config3 ->. apply lookup_insert_eq.
  - intros Hdead t3 Ht3. destruct (Hfresh Hdead) as (_ & _ & Hstore).
    assert (Hdead3 : live store1 issuer t3 = false).
    { destruct (live store1 issuer t3) eqn:Hlive3; [|reflexivity].
      rewrite Hstore in Hlive3. apply Hwritten in Hlive3. lia. }
    rewrite (Hrefetch t3 Hdead3). simpl.
    split; [reflexivity|].
    intros config3 ->. split; [reflexivity|].
    intros t4 Ht4. apply Hread. exact Ht4.
Qed.

End Caching.

Lemma oidc_config_cached_for_ttl_witness :
  let first := oidc_config (CO := Scenario.collaborators) Scenario.network
                 Scenario.authenticator 1000 ∅ in
  let second := oidc_config (CO := Scenario.collaborators) Scenario.network
                  Scenario.authenticator 1599 (snd first) in
  let third := oidc_config (CO := Scenario.collaborators) Scenario.network
                 Scenario.authenticator 1600 (snd second) in
  fetches (trace (fst first)) = 1%nat
  /\ fetches (trace (fst second)) = 0%nat
  /\ outcome (fst second) = outcome (fst first)
  /\ fetches (trace (fst third)) = 1%nat
  /\ outcome (fst third) <> outcome (fst first).
Proof.
  intros first second third.
  assert (Hissuer : effective_issuer Scenario.authenticator
                    = Return "https://idp.example/") by reflexivity.
  assert (Hfirst : first
                   = ((trace (fst first),
                       Scenario.network 1000
                         ("https://idp.example/" +:+ well_known_path)),
                      snd first))
    by (vm_compute; reflexivity).
  destruct (oidc_config_cached_for_ttl (CO := Scenario.collaborators)
              Scenario.network Scenario.authenticator
              "https://idp.example/" ∅ (snd first) 1000
              (trace (fst first)) _ Hissuer Hfirst)
    as (_ & Hfresh & Hhit & _ & Hexpired).
  destruct (Hfresh eq_refl) as (Hone & _ & _ & _ & Hwindow).
  assert (Hsecond : second = (([], outcome (fst first)), snd first)).
  { apply (Hhit 1599). apply Hwindow. reflexivity. }
  split; [exact Hone|].
  rewrite Hsecond. split; [reflexivity|]. split; [reflexivity|].
  assert (Hthird : third = oidc_config (CO := Scenario.collaborators)
                             Scenario.network Scenario.authenticator 1600
                             (snd first)).
  { unfold third. rewrite Hsecond. reflexivity. }
  rewrite Hthird.
  assert (Hlate : 1000 + OIDC_CONFIG_EXPIRATION_TIME
                           (api_token_auth_settings
                              (Collaborators := Scenario.collaborators))
                  <= 1600) by (vm_compute; discriminate).
  destruct (Hexpired eq_refl 1600 Hlate) as (Hfetch & _).
  unfold outcome, trace. rewrite Hfetch.
  split; [reflexivity|]. simpl. discriminate.
Defined.

(** * Further properties of the class *)

(** ** White space in the header *)

Lemma split_go_all_space (ws : string) :
  Text.all_space ws = true -> Text.split_go ws = (EmptyString, []).
Proof.
  induction ws as [|c ws IH]; simpl; [reflexivity|].
  intros [Hc Hws]%andb_prop. rewrite (IH Hws), Hc. reflexivity.
Qed.

Lemma split_go_all_space_app (ws rest : string) :
  Text.all_space ws = true ->
  Text.split_go (ws +:+ rest)
  = match ws with
    | EmptyString => Text.split_go rest
    | _ => (EmptyString, Text.split rest)
    end.
Proof.
  induction ws as [|c ws IH]; [reflexivity|].
  intros [Hc Hws]%andb_prop. rewrite append_cons. simpl.
  rewrite (IH Hws), Hc. unfold Text.split.
  destruct ws; [|reflexivity].
  destruct (Text.split_go rest); reflexivity.
Qed.

Lemma split_all_space_app (ws rest : string) :
  Text.all_space ws = true -> Text.split (ws +:+ rest) = Text.split rest.
Proof.
  intros Hws. unfold Text.split at 1.
  rewrite (split_go_all_space_app ws rest Hws).
  destruct ws; reflexivity.
Qed.

Lemma split_go_word_then_space (w ws : string) :
  Text.no_space w = true -> Text.all_space ws = true ->
  Text.split_go (w +:+ ws) = (w, []).
Proof.
  intros Hw Hws. rewrite (split_go_no_space_app w ws Hw).
  rewrite (split_go_all_space ws Hws). simpl.
  rewrite append_nil_r. reflexivity.
Qed.

(** Two words with white space before, between and after them split into
    these two words. *)
Lemma split_padded_pair (lead w1 gap w2 trail : string) :
  Text.all_space lead = true -> Text.all_space gap = true ->
  Text.all_space trail = true -> gap <> EmptyString ->
  w1 <> EmptyString -> w2 <> EmptyString ->
  Text.no_space w1 = true -> Text.no_space w2 = true ->
  Text.split (lead +:+ w1 +:+ gap +:+ w2 +:+ trail) = [w1; w2].
Proof.
  intros Hlead Hgap Htrail Hgap_ne Hw1 Hw2 Hns1 Hns2.
  rewrite (split_all_space_app lead _ Hlead). unfold Text.split.
  rewrite (split_go_no_space_app w1 _ Hns1).
  rewrite (split_go_all_space_app gap _ Hgap).
  destruct gap as [|g gap]; [contradiction|].
  unfold Text.split. rewrite (split_go_word_then_space w2 trail Hns2 Htrail).
  simpl. rewrite append_nil_r.
  destruct w1; [contradiction|]. destruct w2; [contradiction|]. reflexivity.
Qed.

Section Header.
Context `{CO : Collaborators}.

(** X1: the challenge of [authenticate_header] is always the scheme, a
    space and the quoted realm; the scheme is never empty, and is [Bearer]
    when none is configured. The scheme and the realm are copied as they
    are, whatever characters they hold. *)
Theorem authenticate_header_value (self : ApiTokenAuthentication)
  (request : Request) :
  authenticate_header self request
  = Return (auth_scheme self +:+ " realm=" +:+ Text.dquote
              +:+ www_authenticate_realm self +:+ Text.dquote)
  /\ auth_scheme self <> EmptyString
  /\ (AUTH_SCHEME (settings self) = None
      \/ AUTH_SCHEME (settings self) = Some EmptyString ->
      auth_scheme self = "Bearer").
Proof.
  split; [|split].
  - unfold authenticate_header, Text.format, Text.dquote, Text.dquote_char.
    rewrite !append_cons, !append_nil_l. simpl. reflexivity.
  - unfold auth_scheme.
    destruct (AUTH_SCHEME (settings self)) as [[|c s]|]; discriminate.
  - unfold auth_scheme. intros [-> | ->]; reflexivity.
Qed.

(** X2: a credential returned by [get_jwt_value] is the second of exactly
    two tokens of the header, the first decoding to the scheme up to case;
    it is not empty and holds no white space. *)
Theorem get_jwt_value_credential_shape (self : ApiTokenAuthentication)
  (request : Request) (credential : string) :
  outcome (get_jwt_value self request) = Return (Some credential) ->
  credential <> EmptyString
  /\ Text.no_space credential = true
  /\ exists auth_0 scheme : string,
       Text.split (get_authorization_header request) = [auth_0; credential]
       /\ smart_str auth_0 = Return scheme
       /\ str_lower scheme = str_lower (auth_scheme self).
Proof.
  unfold get_jwt_value.
  pose proof (split_words (get_authorization_header request)) as Hwords.
  destruct (Text.split (get_authorization_header request))
    as [|auth_0 [|auth_1 [|auth_2 rest]]]; simpl;
    try discriminate;
    destruct (smart_str auth_0) as [scheme|e] eqn:Hdecoded; simpl;
    try discriminate;
    destruct (String.eqb _ _) eqn:Heq; simpl; try discriminate.
  intros [= <-].
  apply Forall_cons in Hwords as [_ Hwords].
  apply Forall_cons in Hwords as [[Hne Hns] _].
  split; [exact Hne|]. split; [exact Hns|].
  exists auth_0, scheme. split; [reflexivity|]. split; [exact Hdecoded|].
  apply String.eqb_eq. exact Heq.
Qed.

(** X3: [get_jwt_value] ends in one of five ways: no credential, a
    credential, an [AuthenticationFailed] with one of its two messages, or
    the exception that [smart_str] raised on the first token of the header;
    the access to the second token is always in range. *)
Theorem get_jwt_value_outcomes (self : ApiTokenAuthentication)
  (request : Request) :
  outcome (get_jwt_value self request) = Return None
  \/ (exists credential : string,
         outcome (get_jwt_value self request) = Return (Some credential))
  \/ outcome (get_jwt_value self request)
     = Raise (AuthenticationFailed (gettext msg_no_credentials))
  \/ outcome (get_jwt_value self request)
     = Raise (AuthenticationFailed (gettext msg_spaces))
  \/ (exists (auth_0 : string) (rest : list string) (e : exn),
         Text.split (get_authorization_header request) = auth_0 :: rest
         /\ smart_str auth_0 = Raise e
         /\ outcome (get_jwt_value self request) = Raise e).
Proof.
  unfold get_jwt_value.
  destruct (Text.split (get_authorization_header request))
    as [|auth_0 rest]; simpl; auto.
  destruct (smart_str auth_0) as [scheme|e] eqn:Hdecoded; simpl.
  - destruct (String.eqb _ _); simpl; auto.
    destruct rest as [|auth_1 [|auth_2 rest]]; simpl; eauto 10.
  - right. right. right. right. exists auth_0, rest, e. auto.
Qed.

(** X4: a header of white space only carries no credential, whatever the
    scheme: extraction and [authenticate] return [None]. *)
Theorem blank_header_no_credential (self : ApiTokenAuthentication)
  (request : Request) (header : string) :
  HTTP_AUTHORIZATION request = Some header ->
  Text.all_space header = true ->
  outcome (get_jwt_value self request) = Return None
  /\ outcome (authenticate self request) = Return None.
Proof.
  intros Hheader Hblank.
  assert (Hnone : outcome (get_jwt_value self request) = Return None).
  { apply get_jwt_value_no_token. unfold get_authorization_header.
    rewrite Hheader. apply split_all_space. exact Hblank. }
  split; [exact Hnone|].
  rewrite (authenticate_no_credential self request Hnone). reflexivity.
Qed.

(** X5: white space before the scheme, after the credential, and any
    non-empty run of it between them are immaterial: the credential is
    returned as it stands. *)
Theorem get_jwt_value_padded_header (self : ApiTokenAuthentication)
  (request : Request) (lead scheme decoded gap credential trail : string) :
  HTTP_AUTHORIZATION request
  = Some (lead +:+ scheme +:+ gap +:+ credential +:+ trail) ->
  Text.all_space lead = true -> Text.all_space gap = true ->
  Text.all_space trail = true -> gap <> EmptyString ->
  scheme <> EmptyString -> credential <> EmptyString ->
  Text.no_space scheme = true -> Text.no_space credential = true ->
  smart_str scheme = Return decoded ->
  str_lower decoded = str_lower (auth_scheme self) ->
  outcome (get_jwt_value self request) = Return (Some credential).
Proof.
  intros Hheader Hlead Hgap Htrail Hgap_ne Hs Hc Hns Hnc Hdecoded Hmatch.
  unfold get_jwt_value, get_authorization_header. rewrite Hheader. simpl.
  rewrite (split_padded_pair lead scheme gap credential trail); try assumption.
  apply String.eqb_eq in Hmatch. simpl. rewrite Hdecoded. simpl.
  rewrite Hmatch. reflexivity.
Qed.

End Header.

(** ** The exits of [authenticate] *)

Section Exits.
Context `{CO : Collaborators}.

Lemma scope_denied_raises (self : ApiTokenAuthentication) :
  exists e : exn, scope_denied self = Raise e.
Proof.
  unfold scope_denied. destruct (Text.format _ _); eauto.
Qed.

Lemma authenticate_cases (self : ApiTokenAuthentication) (request : Request) :
  let header_line :=
    Debug (LogAuthorizationHeader
             (Text.split (get_authorization_header request))) in
  (outcome (get_jwt_value self request) = Return None
   /\ authenticate self request = ([header_line], Return None))
  \/ (exists e : exn,
         outcome (get_jwt_value self request) = Raise e
         /\ authenticate self request = ([header_line], Raise e))
  \/ (exists (jwt_value : string) (e : exn),
         outcome (get_jwt_value self request) = Return (Some jwt_value)
         /\ decode_jwt self jwt_value = Raise e
         /\ authenticate self request
            = (([header_line; DecodeJwt jwt_value]
                  ++ match e with
                     | AuthenticationFailed _ =>
                         [Debug LogInvalidTokenSignature]
                     | _ => []
                     end)%list,
               Raise e))
  \/ (exists (jwt_value : string) (decoded : gmap string json),
         outcome (get_jwt_value self request) = Return (Some jwt_value)
         /\ decode_jwt self jwt_value = Return decoded).
Proof.
  intros header_line.
  pose proof (get_jwt_value_trace self request) as Htr. fold header_line in Htr.
  destruct (outcome (get_jwt_value self request))
    as [[jwt_value|]|e] eqn:Hout.
  - destruct (decode_jwt self jwt_value) as [decoded|e] eqn:Hdec.
    + right. right. right. exists jwt_value, decoded.
      split; [reflexivity|exact Hdec].
    + right. right. left. exists jwt_value, e.
      split; [reflexivity|]. split; [exact Hdec|].
      unfold authenticate.
      destruct (get_jwt_value self request) as [t r].
      unfold outcome, trace in Hout, Htr. simpl in Hout, Htr. subst t r.
      simpl. rewrite Hdec. destruct e; reflexivity.
  - left. split; [reflexivity|].
    exact (authenticate_no_credential self request Hout).
  - right. left. exists e. split; [reflexivity|].
    rewrite (authenticate_extraction_raises self request e Hout), Htr.
    reflexivity.
Qed.

(** X6: when the decoder rejects the token, [authenticate] raises the
    decoder's exception unchanged, having called neither the validator nor
    the resolver; the rejection is logged when it is an
    [AuthenticationFailed]. *)
Theorem authenticate_decode_failure (self : ApiTokenAuthentication)
  (request : Request) (jwt_value : string) (e : exn) :
  outcome (get_jwt_value self request) = Return (Some jwt_value) ->
  decode_jwt self jwt_value = Raise e ->
  authenticate self request
  = (([Debug (LogAuthorizationHeader
                (Text.split (get_authorization_header request)));
       DecodeJwt jwt_value]
        ++ match e with
           | AuthenticationFailed _ => [Debug LogInvalidTokenSignature]
           | _ => []
           end)%list,
     Raise e).
Proof.
  intros Hout Hdec.
  destruct (authenticate_cases self request)
    as [[Hnone _]|[(e' & Hraise & _)|[(jwt' & e' & Hout' & Hdec' & Hauth)
                                     |(jwt' & decoded & Hout' & Hdec')]]].
  - rewrite Hnone in Hout. discriminate Hout.
  - rewrite Hraise in Hout. discriminate Hout.
  - rewrite Hout' in Hout. injection Hout as ->.
    rewrite Hdec' in Hdec. injection Hdec as ->. exact Hauth.
  - rewrite Hout' in Hout. injection Hout as ->.
    rewrite Hdec' in Hdec. discriminate Hdec.
Qed.

(** X7: when the claim validation rejects the payload, [authenticate]
    raises the validator's exception unchanged and the resolver is not
    called. *)
Theorem authenticate_validation_failure (self : ApiTokenAuthentication)
  (request : Request) (jwt_value : string) (decoded : gmap string json)
  (e : exn) :
  outcome (get_jwt_value self request) = Return (Some jwt_value) ->
  decode_jwt self jwt_value = Return decoded ->
  validate_claims self (normalize_amr decoded) = Raise e ->
  outcome (authenticate self request) = Raise e
  /\ In (ValidateClaims (normalize_amr decoded))
       (trace (authenticate self request))
  /\ calls is_resolve_call (trace (authenticate self request)) = 0%nat.
Proof.
  intros Hout Hdec Hval.
  pose proof (authenticate_decoded self request jwt_value decoded Hout Hdec)
    as Hauth.
  cbv zeta in Hauth. rewrite Hval in Hauth. rewrite Hauth.
  rewrite get_jwt_value_trace. unfold outcome, trace, decoded_events, calls.
  simpl. split; [reflexivity|].
  destruct (amr_modified decoded); simpl; auto 10.
Qed.

(** X8: of the exceptions of the resolver only [ValueError] is translated;
    any other one leaves [authenticate] unchanged. *)
Theorem authenticate_resolver_failure (self : ApiTokenAuthentication)
  (request : Request) (jwt_value : string) (decoded : gmap string json)
  (e : exn) :
  outcome (get_jwt_value self request) = Return (Some jwt_value) ->
  decode_jwt self jwt_value = Return decoded ->
  validate_claims self (normalize_amr decoded) = Return tt ->
  USER_RESOLVER (settings self) request (normalize_amr decoded) = Raise e ->
  outcome (authenticate self request)
  = Raise match e with
          | ValueError msg => AuthenticationFailed msg
          | _ => e
          end.
Proof.
  intros Hout Hdec Hval Hres.
  pose proof (authenticate_decoded self request jwt_value decoded Hout Hdec)
    as Hauth.
  cbv zeta in Hauth. rewrite Hval, Hres in Hauth. rewrite Hauth.
  destruct e; reflexivity.
Qed.

(** X9: when no API scope is required, a request whose token is decoded,
    validated and resolved is authenticated whatever scopes it has, and the
    authorization is built from the resolved user, the normalised payload
    and the settings of the authenticator. *)
Theorem authenticate_scope_not_required (self : ApiTokenAuthentication)
  (request : Request) (jwt_value : string) (decoded : gmap string json)
  (resolved : User) :
  outcome (get_jwt_value self request) = Return (Some jwt_value) ->
  decode_jwt self jwt_value = Return decoded ->
  validate_claims self (normalize_amr decoded) = Return tt ->
  USER_RESOLVER (settings self) request (normalize_amr decoded)
  = Return resolved ->
  REQUIRE_API_SCOPE_FOR_AUTHENTICATION (settings self) = false ->
  outcome (authenticate self request)
  = Return (Some (resolved,
                  {| user := resolved; data := normalize_amr decoded;
                     authz_settings := settings self |})).
Proof.
  intros Hout Hdec Hval Hres Hreq.
  pose proof (authenticate_decoded self request jwt_value decoded Hout Hdec)
    as Hauth.
  cbv zeta in Hauth. rewrite Hval, Hres, Hreq in Hauth. rewrite Hauth.
  reflexivity.
Qed.

(** X10: [authenticate] returns a user only after every stage has passed:
    a token was extracted and decoded, the validator accepted the
    normalised payload, the resolver returned that user on it, the
    authorization holds exactly that user, payload and the settings, and,
    when a scope is required, the authorization has it. *)
Theorem authenticate_success_sound (self : ApiTokenAuthentication)
  (request : Request) (resolved : User) (auth : UserAuthorization) :
  outcome (authenticate self request) = Return (Some (resolved, auth)) ->
  exists (jwt_value : string) (decoded : gmap string json),
    outcome (get_jwt_value self request) = Return (Some jwt_value)
    /\ decode_jwt self jwt_value = Return decoded
    /\ validate_claims self (normalize_amr decoded) = Return tt
    /\ USER_RESOLVER (settings self) request (normalize_amr decoded)
       = Return resolved
    /\ auth = {| user := resolved; data := normalize_amr decoded;
                 authz_settings := settings self |}
    /\ (REQUIRE_API_SCOPE_FOR_AUTHENTICATION (settings self) = true ->
        has_api_scope_with_prefix auth (API_SCOPE_PREFIX (settings self))
        = true).
Proof.
  intros Hok.
  destruct (authenticate_cases self request)
    as [[_ Hauth]|[(e & _ & Hauth)|[(jwt & e & _ & _ & Hauth)
                                   |(jwt & decoded & Hout & Hdec)]]];
    try (rewrite Hauth in Hok; discriminate Hok).
  exists jwt, decoded. split; [exact Hout|]. split; [exact Hdec|].
  pose proof (authenticate_decoded self request jwt decoded Hout Hdec)
    as Hauth.
  cbv zeta in Hauth. rewrite Hauth in Hok. unfold outcome in Hok.
  destruct (validate_claims self (normalize_amr decoded)) as [[]|e];
    [|discriminate Hok].
  simpl in Hok.
  destruct (USER_RESOLVER (settings self) request (normalize_amr decoded))
    as [u|e]; [|destruct e; discriminate Hok].
  destruct (REQUIRE_API_SCOPE_FOR_AUTHENTICATION (settings self)) eqn:Hreq;
    simpl in Hok.
  - destruct (has_api_scope_with_prefix _ _) eqn:Hscope; simpl in Hok.
    + injection Hok as <- <-. repeat split; auto.
    + destruct (scope_denied_raises self) as [e He].
      rewrite He in Hok. discriminate Hok.
  - injection Hok as <- <-. repeat split; auto. discriminate.
Qed.

Lemma authenticate_decoded_trace (self : ApiTokenAuthentication)
  (request : Request) (jwt_value : string) (decoded : gmap string json) :
  outcome (get_jwt_value self request) = Return (Some jwt_value) ->
  decode_jwt self jwt_value = Return decoded ->
  let payload := normalize_amr decoded in
  let validated :=
    ([Debug (LogAuthorizationHeader
               (Text.split (get_authorization_header request)));
      DecodeJwt jwt_value]
       ++ (if amr_modified decoded then [Debug LogAmrModified] else [])
       ++ [Debug (LogPayloadDecoded payload); ValidateClaims payload])%list in
  trace (authenticate self request)
  = match validate_claims self payload with
    | Return _ => (validated ++ [ResolveUser request payload])%list
    | Raise _ => validated
    end.
Proof.
  intros Hout Hdec payload validated. subst payload validated.
  pose proof (authenticate_decoded self request jwt_value decoded Hout Hdec)
    as Hauth.
  cbv zeta in Hauth. rewrite Hauth, get_jwt_value_trace.
  unfold decoded_events.
  destruct (validate_claims self (normalize_amr decoded)) as [[]|e];
    reflexivity.
Qed.

(** X11: the stages of [authenticate] are entered in order and none twice:
    in every run the resolver is called at most as often as the validator,
    the validator at most as often as the decoder, and the decoder at most
    once. *)
Theorem authenticate_stages_in_order (self : ApiTokenAuthentication)
  (request : Request) :
  let t := trace (authenticate self request) in
  (calls is_resolve_call t <= calls is_validate_call t)%nat
  /\ (calls is_validate_call t <= calls is_decode_call t)%nat
  /\ (calls is_decode_call t <= 1)%nat.
Proof.
  intros t. subst t.
  destruct (authenticate_cases self request)
    as [[_ Hauth]|[(e & _ & Hauth)|[(jwt & e & _ & _ & Hauth)
                                   |(jwt & decoded & Hout & Hdec)]]].
  - rewrite Hauth. unfold calls. simpl. lia.
  - rewrite Hauth. unfold calls. simpl. lia.
  - rewrite Hauth. unfold calls. destruct e; simpl; lia.
  - pose proof (authenticate_decoded_trace self request jwt decoded Hout Hdec)
      as Htr.
    cbv zeta in Htr. rewrite Htr. unfold calls.
    destruct (validate_claims self (normalize_amr decoded)) as [[]|e];
      destruct (amr_modified decoded); simpl; lia.
Qed.

(** X12: whatever the decoder returned, the payload that reaches the
    validator or the resolver has no string as its [amr] claim. *)
Theorem collaborators_receive_list_amr (self : ApiTokenAuthentication)
  (request : Request) (p : gmap string json) :
  In (ValidateClaims p) (trace (authenticate self request))
  \/ (exists r : Request,
         In (ResolveUser r p) (trace (authenticate self request))) ->
  isinstance_str (p !! "amr") = false.
Proof.
  intros Hin.
  destruct (authenticate_cases self request)
    as [[_ Hauth]|[(e & _ & Hauth)|[(jwt & e & _ & _ & Hauth)
                                   |(jwt & decoded & Hout & Hdec)]]].
  - rewrite Hauth in Hin. unfold trace in Hin. simpl in Hin.
    destruct Hin as [[H|[]]|[r [H|[]]]]; discriminate H.
  - rewrite Hauth in Hin. unfold trace in Hin. simpl in Hin.
    destruct Hin as [[H|[]]|[r [H|[]]]]; discriminate H.
  - rewrite Hauth in Hin. unfold trace in Hin.
    destruct e; simpl in Hin;
      destruct Hin as [Hin|[r Hin]]; intuition discriminate.
  - pose proof (authenticate_decoded_trace self request jwt decoded Hout Hdec)
      as Htr.
    cbv zeta in Htr. rewrite Htr in Hin.
    assert (Hp : p = normalize_amr decoded).
    { destruct (validate_claims self (normalize_amr decoded)) as [[]|e];
        destruct (amr_modified decoded); simpl in Hin;
        destruct Hin as [Hin|[r Hin]];
        repeat (destruct Hin as [Hin|Hin]; [try discriminate Hin|]);
        try contradiction; congruence. }
    subst p. apply normalize_amr_canonical.
Qed.

(** X13: [authenticate] returns [None] exactly when the header carries no
    credential for the scheme; once a credential has been extracted it
    either returns a user or raises. *)
Theorem authenticate_none_iff_no_credential (self : ApiTokenAuthentication)
  (request : Request) :
  outcome (authenticate self request) = Return None
  <-> outcome (get_jwt_value self request) = Return None.
Proof.
  split.
  - intros Hnone.
    destruct (authenticate_cases self request)
      as [[Hout _]|[(e & _ & Hauth)|[(jwt & e & _ & _ & Hauth)
                                    |(jwt & decoded & Hout & Hdec)]]].
    + exact Hout.
    + rewrite Hauth in Hnone. discriminate Hnone.
    + rewrite Hauth in Hnone. discriminate Hnone.
    + exfalso.
      pose proof (authenticate_decoded self request jwt decoded Hout Hdec)
        as Hauth.
      cbv zeta in Hauth. rewrite Hauth in Hnone. unfold outcome in Hnone.
      destruct (validate_claims self (normalize_amr decoded)) as [[]|e];
        [|discriminate Hnone].
      simpl in Hnone.
      destruct (USER_RESOLVER (settings self) request (normalize_amr decoded))
        as [u|e]; [|destruct e; discriminate Hnone].
      destruct (REQUIRE_API_SCOPE_FOR_AUTHENTICATION (settings self)
                && negb (has_api_scope_with_prefix _ _)); [|discriminate Hnone].
      destruct (scope_denied_raises self) as [e He].
      rewrite He in Hnone. discriminate Hnone.
  - intros Hout. rewrite (authenticate_no_credential self request Hout).
    reflexivity.
Qed.

End Exits.


(** ** The issuer and the audiences *)

Section Settings.
Context `{CO : Collaborators}.

(** X14: [get_oidc_config] makes at most one request; it makes none
    exactly when the issuer setting is an empty sequence, and then raises
    [IndexError]; a failure of the request or of the parsing of its body
    is raised unchanged. *)
Theorem get_oidc_config_requests (requests_get_json : string -> result json)
  (self : ApiTokenAuthentication) :
  (fetches (trace (get_oidc_config requests_get_json self)) <= 1)%nat
  /\ (ISSUER (settings self) = StrList [] ->
      get_oidc_config requests_get_json self
      = ([], Raise (IndexError "list index out of range")))
  /\ (ISSUER (settings self) = StrTuple [] ->
      get_oidc_config requests_get_json self
      = ([], Raise (IndexError "tuple index out of range")))
  /\ (fetches (trace (get_oidc_config requests_get_json self)) = 0%nat ->
      ISSUER (settings self) = StrList []
      \/ ISSUER (settings self) = StrTuple [])
  /\ (forall (issuer : string) (e : exn),
         effective_issuer self = Return issuer ->
         requests_get_json (issuer +:+ well_known_path) = Raise e ->
         outcome (get_oidc_config requests_get_json self) = Raise e).
Proof.
  pose proof (effective_issuer_cases self) as Hcases.
  destruct (effective_issuer self) as [issuer|e] eqn:Hissuer.
  - rewrite (get_oidc_config_issuer requests_get_json self issuer Hissuer).
    unfold fetches, trace, outcome. simpl.
    split; [lia|].
    split; [intros Hs; rewrite Hs in Hcases; discriminate Hcases|].
    split; [intros Hs; rewrite Hs in Hcases; discriminate Hcases|].
    split; [discriminate|].
    intros issuer' e [= <-] Hnet. exact Hnet.
  - rewrite (get_oidc_config_no_issuer requests_get_json self e Hissuer).
    unfold fetches, trace. simpl.
    split; [lia|].
    split; [intros Hs; rewrite Hs in Hcases; congruence|].
    split; [intros Hs; rewrite Hs in Hcases; congruence|].
    split; [|discriminate].
    intros _.
    destruct (ISSUER (settings self)) as [s|[|first rest]|[|first rest]];
      try discriminate Hcases; auto.
Qed.

(** X15: when the audience is configured as a single string, the set of
    [get_audiences] and the values of the [aud] claims option hold the same
    audiences, namely that string alone. *)
Theorem get_audiences_string_setting (self : ApiTokenAuthentication)
  (api_token s : string) :
  AUDIENCE (settings self) = OneStr s ->
  exists (audiences : list str_or_seq) (opt : claim_option),
    get_audiences self api_token = Return audiences
    /\ claims_options self !! "aud" = Some opt
    /\ flat_map seq_items audiences = [s]
    /\ seq_items (values opt) = [s]
    /\ isinstance_conf_str (values opt) = false.
Proof.
  intros Hs.
  exists [OneStr s], {| essential := true; values := StrList [s] |}.
  split; [rewrite get_audiences_raw, Hs; reflexivity|].
  split; [|repeat split].
  unfold claims_options. rewrite lookup_insert_eq, Hs. reflexivity.
Qed.

End Settings.

(** ** Instances of the further properties *)

Lemma authenticate_header_value_witness :
  authenticate_header (CO := Scenario.collaborators)
    Scenario.authenticator None
  = Return ("Bearer realm=" +:+ Text.dquote +:+ "api" +:+ Text.dquote)
  /\ auth_scheme Scenario.multi_authenticator = "Bearer".
Proof.
  split.
  - apply (authenticate_header_value (CO := Scenario.collaborators)
             Scenario.authenticator None).
  - apply (authenticate_header_value (CO := Scenario.collaborators)
             Scenario.multi_authenticator None).
    left. reflexivity.
Defined.

Lemma get_jwt_value_credential_shape_witness :
  Text.no_space "abc.def.ghi" = true
  /\ exists auth_0 scheme : string,
       Text.split "bearer abc.def.ghi" = [auth_0; "abc.def.ghi"]
       /\ Text.utf8_decode auth_0 = Return scheme
       /\ Text.ascii_lower scheme = "bearer".
Proof.
  apply (get_jwt_value_credential_shape (FW := Scenario.framework)
           Scenario.authenticator (Some "bearer abc.def.ghi") "abc.def.ghi").
  vm_compute. reflexivity.
Defined.

Lemma blank_header_no_credential_witness :
  outcome (Scenario.authenticate_request (Some "   ")) = Return None.
Proof.
  apply (blank_header_no_credential (CO := Scenario.collaborators)
           Scenario.authenticator (Some "   ") "   "); reflexivity.
Defined.

Lemma get_jwt_value_padded_header_witness :
  outcome (Scenario.extract (Some " bearer   abc.def.ghi "))
  = Return (Some "abc.def.ghi").
Proof.
  apply (get_jwt_value_padded_header (FW := Scenario.framework)
           Scenario.authenticator (Some " bearer   abc.def.ghi ")
           " " "bearer" "bearer" "   " "abc.def.ghi" " ");
    try reflexivity; discriminate.
Defined.

Lemma authenticate_decode_failure_witness :
  outcome (Scenario.authenticate_request (Some "Bearer garbage"))
  = Raise (AuthenticationFailed
             ("Invalid Authorization header. "
                +:+ "JWT Signature verification failed."))
  /\ In (Debug LogInvalidTokenSignature)
       (trace (Scenario.authenticate_request (Some "Bearer garbage"))).
Proof.
  unfold Scenario.authenticate_request.
  rewrite (authenticate_decode_failure (CO := Scenario.collaborators)
             Scenario.authenticator (Some "Bearer garbage") "garbage"
             (AuthenticationFailed
                ("Invalid Authorization header. "
                   +:+ "JWT Signature verification failed.")));
    [|vm_compute; reflexivity|vm_compute; reflexivity].
  split; [reflexivity|]. unfold trace. simpl. auto.
Defined.

Lemma authenticate_validation_failure_witness :
  outcome (Scenario.authenticate_request (Some "Bearer no.aud.tok"))
  = Raise (AuthenticationFailed "missing_claim")
  /\ calls is_resolve_call
       (trace (Scenario.authenticate_request (Some "Bearer no.aud.tok")))
     = 0%nat.
Proof.
  destruct (authenticate_validation_failure (CO := Scenario.collaborators)
              Scenario.authenticator (Some "Bearer no.aud.tok") "no.aud.tok"
              (delete "aud" (Scenario.claims "myapi.read openid"))
              (AuthenticationFailed "missing_claim"))
    as (Hout & _ & Hcalls); try (vm_compute; reflexivity).
  split; [exact Hout|exact Hcalls].
Defined.

Lemma authenticate_resolver_failure_witness :
  outcome (authenticate (CO := Scenario.collaborators)
             Scenario.strict_authenticator (Some "Token no.sub.tok"))
  = Raise (KeyError "sub").
Proof.
  apply (authenticate_resolver_failure (CO := Scenario.collaborators)
           Scenario.strict_authenticator (Some "Token no.sub.tok")
           "no.sub.tok" (delete "sub" (Scenario.claims "myapi.read openid"))
           (KeyError "sub"));
    vm_compute; reflexivity.
Defined.

Lemma authenticate_scope_not_required_witness :
  exists auth : UserAuthorization,
    outcome (authenticate (CO := Scenario.collaborators)
               Scenario.multi_authenticator (Some "Bearer no.scope.tok"))
    = Return (Some ("alice", auth))
    /\ Scenario.scope_with_prefix auth "myapi" = false.
Proof.
  eexists. split.
  - apply (authenticate_scope_not_required (CO := Scenario.collaborators)
             Scenario.multi_authenticator (Some "Bearer no.scope.tok")
             "no.scope.tok" (Scenario.claims "openid profile") "alice");
      vm_compute; reflexivity.
  - vm_compute. reflexivity.
Defined.

Lemma authenticate_success_sound_witness :
  exists (jwt_value : string) (decoded : gmap string json),
    outcome (Scenario.extract (Some "bearer abc.def.ghi"))
    = Return (Some jwt_value)
    /\ Scenario.decode jwt_value = Return decoded
    /\ Scenario.user_resolver (Some "bearer abc.def.ghi")
         (normalize_amr decoded)
       = Return "alice".
Proof.
  destruct (authenticate_success_sound (CO := Scenario.collaborators)
              Scenario.authenticator (Some "bearer abc.def.ghi") "alice"
              (Scenario.authorization
                 (normalize_amr (Scenario.claims "myapi.read openid"))))
    as (jwt_value & decoded & Hout & Hdec & _ & Hres & _).
  - vm_compute. reflexivity.
  - exists jwt_value, decoded. split; [exact Hout|].
    split; [exact Hdec|exact Hres].
Defined.

Lemma collaborators_receive_list_amr_witness :
  (Scenario.claims "openid profile") !! "amr" = Some (JStr "pwd")
  /\ isinstance_str
       (normalize_amr (Scenario.claims "openid profile") !! "amr") = false.
Proof.
  split; [reflexivity|].
  apply (collaborators_receive_list_amr (CO := Scenario.collaborators)
           Scenario.authenticator (Some "Bearer no.scope.tok")).
  left. vm_compute. auto 10.
Defined.

Lemma authenticate_none_iff_no_credential_witness :
  outcome (Scenario.authenticate_request (Some "Basic dXNlcjpwYXNz"))
  = Return None.
Proof.
  apply (authenticate_none_iff_no_credential (CO := Scenario.collaborators)
           Scenario.authenticator (Some "Basic dXNlcjpwYXNz")).
  vm_compute. reflexivity.
Defined.

Lemma get_oidc_config_requests_witness :
  get_oidc_config (Scenario.network 0) Scenario.strict_authenticator
  = ([], Raise (IndexError "tuple index out of range")).
Proof.
  apply (get_oidc_config_requests (Scenario.network 0)
           Scenario.strict_authenticator).
  reflexivity.
Defined.

Lemma get_audiences_string_setting_witness :
  exists (audiences : list str_or_seq) (opt : claim_option),
    get_audiences Scenario.strict_authenticator "abc.def.ghi"
    = Return audiences
    /\ claims_options (CO := Scenario.collaborators)
         Scenario.strict_authenticator !! "aud" = Some opt
    /\ flat_map seq_items audiences = ["api"]
    /\ seq_items (values opt) = ["api"]
    /\ isinstance_conf_str (values opt) = false.
Proof.
  apply (get_audiences_string_setting (CO := Scenario.collaborators)
           Scenario.strict_authenticator "abc.def.ghi" "api").
  reflexivity.
Defined.
